(** * gh-release-notifier: a shallow embedding of [main.py]

    The program polls the latest release of every configured repository,
    compares it with the state recorded by the previous run, posts a webhook
    notification for releases it considers new, and rewrites the state file.

    Conventions of the embedding:
    - a Python [str] is the list of its Unicode code points ([pystr]);
    - the [dict] held by [StateFile.states] is a [gmap] keyed by repository name;
    - a [datetime] is the instant it denotes, as an integer (both sides of the
      comparison in [main] are timezone-aware, and aware datetimes compare by
      instant);
    - the GitHub client, [httpx.post] and the state file on disk are the
      environment of a run ([Env]); what the code does with them is recorded
      as a trace of [Event]s;
    - an exception that [main] does not catch ends the run ([Raise]).

    A run is modelled from the point where [Settings()], the logging setup,
    [ZoneInfo(cfg.timezone)] and [Github()] have returned; writing the state
    file at the end is taken to succeed. *)

From Stdlib Require Import ZArith NArith String Ascii Lia.
From stdpp Require Import gmap list.
From Equations Require Import Equations.

Local Open Scope N_scope.

(** ** Python strings *)

Abbreviation pystr := (list N).

(** [py] turns an ASCII literal into the Python string of its code points. *)
Definition py (s : String.string) : pystr :=
  List.map N_of_ascii (list_ascii_of_string s).

Definition QUOTE : N := 34.      (* double quote *)
Definition BACKSLASH : N := 92.  (* backslash *)
Definition DOLLAR : N := 36.     (* dollar sign *)
Definition LBRACE : N := 123.    (* opening brace *)
Definition RBRACE : N := 125.    (* closing brace *)

(** Python truthiness of an optional string: [None] and the empty string
    are falsy, so [x or d] is [d] for both. *)
Definition str_or (x : option pystr) (d : pystr) : pystr :=
  match x with
  | Some (c :: s) => c :: s
  | Some [] => d
  | None => d
  end.

(** [str(i)] for an [int]. *)
Fixpoint uint_digits (u : Decimal.uint) : pystr :=
  match u with
  | Decimal.Nil => []
  | Decimal.D0 u => 48 :: uint_digits u
  | Decimal.D1 u => 49 :: uint_digits u
  | Decimal.D2 u => 50 :: uint_digits u
  | Decimal.D3 u => 51 :: uint_digits u
  | Decimal.D4 u => 52 :: uint_digits u
  | Decimal.D5 u => 53 :: uint_digits u
  | Decimal.D6 u => 54 :: uint_digits u
  | Decimal.D7 u => 55 :: uint_digits u
  | Decimal.D8 u => 56 :: uint_digits u
  | Decimal.D9 u => 57 :: uint_digits u
  end.

Definition str_int (i : Z) : pystr :=
  match Z.to_int i with
  | Decimal.Pos u => uint_digits u
  | Decimal.Neg u => 45 :: uint_digits u
  end.

(** ** [escape]: [json.dumps(s, ensure_ascii=False, allow_nan=False)[1:-1]] *)

Module Json.

Definition hexdigit (d : N) : N :=
  if d <? 10 then 48 + d else 87 + d.        (* 0..9, a..f *)

(** The format [\u{0:04x}] of [ESCAPE_DCT]. *)
Definition u_escape (i : N) : pystr :=
  [BACKSLASH; 117;
   hexdigit (i / 4096 mod 16); hexdigit (i / 256 mod 16);
   hexdigit (i / 16 mod 16); hexdigit (i mod 16)].

(** [ESCAPE_DCT] of [json.encoder], applied where the pattern [ESCAPE]
    matches (code points below 0x20, the backslash and the double quote);
    every other character is copied. *)
Definition replace (c : N) : pystr :=
  if c =? BACKSLASH then [BACKSLASH; BACKSLASH]
  else if c =? QUOTE then [BACKSLASH; QUOTE]
  else if c =? 8 then [BACKSLASH; 98]         (* \b *)
  else if c =? 12 then [BACKSLASH; 102]       (* \f *)
  else if c =? 10 then [BACKSLASH; 110]       (* \n *)
  else if c =? 13 then [BACKSLASH; 114]       (* \r *)
  else if c =? 9 then [BACKSLASH; 116]        (* \t *)
  else if c <? 32 then u_escape c
  else [c].

(** [encode_basestring]: the encoder [json.dumps] uses for a [str] when
    [ensure_ascii] is false. *)
Definition encode_basestring (s : pystr) : pystr :=
  QUOTE :: concat (List.map replace s) ++ [QUOTE].

Definition dumps (s : pystr) : pystr := encode_basestring s.

(** The slice [o[1:-1]]. *)
Definition slice_1_m1 (o : pystr) : pystr :=
  take (length o - 1 - 1)%nat (drop 1 o).

(** *** A JSON string-literal reader (RFC 8259, section 7)

    [scanstring l] reads a string literal whose opening quote has just been
    consumed: it returns the decoded characters and the input left after the
    closing quote.  Unescaped control characters are rejected, as strict
    parsers do. *)

Definition hexval (c : N) : option N :=
  if (48 <=? c) && (c <=? 57) then Some (c - 48)
  else if (97 <=? c) && (c <=? 102) then Some (c - 87)
  else if (65 <=? c) && (c <=? 70) then Some (c - 55)
  else None.

Definition hex4 (a b c d : N) : option N :=
  match hexval a, hexval b, hexval c, hexval d with
  | Some a, Some b, Some c, Some d => Some (a * 4096 + b * 256 + c * 16 + d)
  | _, _, _, _ => None
  end.

Definition unescape (e : N) : option N :=
  if e =? QUOTE then Some QUOTE
  else if e =? BACKSLASH then Some BACKSLASH
  else if e =? 47 then Some 47
  else if e =? 98 then Some 8
  else if e =? 102 then Some 12
  else if e =? 110 then Some 10
  else if e =? 114 then Some 13
  else if e =? 116 then Some 9
  else None.

Definition push (c : N) (r : option (pystr * pystr)) : option (pystr * pystr) :=
  match r with
  | Some (s, rest) => Some (c :: s, rest)
  | None => None
  end.

Fixpoint scanstring (l : pystr) : option (pystr * pystr) :=
  match l with
  | [] => None
  | c :: t =>
      if c =? QUOTE then Some ([], t)
      else if c =? BACKSLASH then
        match t with
        | [] => None
        | e :: t1 =>
            if e =? 117 then
              match t1 with
              | h1 :: h2 :: h3 :: h4 :: t2 =>
                  match hex4 h1 h2 h3 h4 with
                  | Some u => push u (scanstring t2)
                  | None => None
                  end
              | _ => None
              end
            else
              match unescape e with
              | Some u => push u (scanstring t1)
              | None => None
              end
        end
      else if c <? 32 then None
      else push c (scanstring t)
  end.

(** Following the words of the specification: a JSON encoding in which
    non-ASCII characters are escaped as well, the way [json.dumps] writes
    them when [ensure_ascii] is left on: [\uXXXX], and a surrogate pair
    above U+FFFF. *)
Definition replace_ascii (c : N) : pystr :=
  if c <? 128 then replace c
  else if c <? 65536 then u_escape c
  else
    let v := c - 65536 in
    u_escape (55296 + v / 1024 mod 1024) ++ u_escape (56320 + v mod 1024).

Definition escape_all_non_ascii (s : pystr) : pystr :=
  concat (List.map replace_ascii s).

End Json.

(** [def escape(s)] *)
Definition escape (s : pystr) : pystr :=
  let o := Json.dumps s in
  Json.slice_1_m1 o.


(** ** Exceptions *)

Inductive GithubError :=
| UnknownObject            (* 404: no such repository, or it has no release *)
| OtherGithubError.        (* rate limit, server or network error, ... *)

Inductive Exn :=
| GithubException (e : GithubError)   (* raised by [get_latest_release] *)
| StateLoadError                      (* [yaml.safe_load] or the [StateFile] validation *)
| ValueError.                         (* last line of [Template.safe_substitute] *)

Inductive Res (A : Type) :=
| Ok (a : A)
| Raise (e : Exn).
Arguments Ok {A} a.
Arguments Raise {A} e.

Definition bind {A B} (m : Res A) (k : A -> Res B) : Res B :=
  match m with
  | Ok a => k a
  | Raise e => Raise e
  end.

Notation "'let!' x ':=' m 'in' k" := (bind m (fun x => k))
  (at level 10, x name, m at level 100, k at level 200).

(** ** [string.Template] *)

Module Template.

(** A match object of [Template.pattern]: the matched text and its four
    named groups ([None] for a group that did not take part). *)
Record Match := {
  group : pystr;
  escaped : option pystr;
  named : option pystr;
  braced : option pystr;
  invalid : option pystr;
}.

(** [idpattern] under [re.IGNORECASE] and its local ASCII flag: an
    underscore or ASCII letter, then underscores, ASCII letters and digits. *)
Definition is_id_start (c : N) : bool :=
  (c =? 95) || ((97 <=? c) && (c <=? 122)) || ((65 <=? c) && (c <=? 90)).

Definition is_id_char (c : N) : bool :=
  is_id_start c || ((48 <=? c) && (c <=? 57)).

(** The greedy tail of an identifier. *)
Fixpoint span_id (l : pystr) : pystr * pystr :=
  match l with
  | c :: t =>
      if is_id_char c then let (i, r) := span_id t in (c :: i, r) else ([], l)
  | [] => ([], [])
  end.

Definition match_id (l : pystr) : option (pystr * pystr) :=
  match l with
  | c :: t =>
      if is_id_start c then let (i, r) := span_id t in Some (c :: i, r)
      else None
  | [] => None
  end.

(** A whole string is an identifier; a text does not go on with an
    identifier character. *)
Definition is_identifier (k : pystr) : bool :=
  match k with
  | c :: t => is_id_start c && forallb is_id_char t
  | [] => false
  end.

Definition not_id_char_first (l : pystr) : bool :=
  match l with
  | c :: _ => negb (is_id_char c)
  | [] => true
  end.

Definition mk_escaped : Match :=
  {| group := [DOLLAR; DOLLAR]; escaped := Some [DOLLAR];
     named := None; braced := None; invalid := None |}.

Definition mk_named (i : pystr) : Match :=
  {| group := DOLLAR :: i; escaped := None;
     named := Some i; braced := None; invalid := None |}.

Definition mk_braced (i : pystr) : Match :=
  {| group := DOLLAR :: LBRACE :: i ++ [RBRACE]; escaped := None;
     named := None; braced := Some i; invalid := None |}.

Definition mk_invalid : Match :=
  {| group := [DOLLAR]; escaped := None;
     named := None; braced := None; invalid := Some [] |}.

(** The alternatives of [pattern] after its leading delimiter, tried in
    order: a second delimiter, an identifier, a braced identifier, and the
    empty [invalid] group.  Returns the match and the text after it. *)
Definition match_after_delimiter (after : pystr) : Match * pystr :=
  match after with
  | [] => (mk_invalid, after)
  | c :: t =>
      if c =? DOLLAR then (mk_escaped, t)
      else
        match match_id after with
        | Some (i, r) => (mk_named i, r)
        | None =>
            if c =? LBRACE then
              match match_id t with
              | Some (i, d :: r) =>
                  if d =? RBRACE then (mk_braced i, r) else (mk_invalid, after)
              | _ => (mk_invalid, after)
              end
            else (mk_invalid, after)
        end
  end.

(** Values of the keyword arguments, and [str()] of them. *)
Inductive PyVal :=
| VStr (s : pystr)
| VInt (i : Z).

Definition str (v : PyVal) : pystr :=
  match v with
  | VStr s => s
  | VInt i => str_int i
  end.

Definition eqb_str (a b : pystr) : bool := bool_decide (a = b).

(** [mapping[key]]: [None] stands for [KeyError]. *)
Fixpoint getitem (mapping : list (pystr * PyVal)) (key : pystr) : option PyVal :=
  match mapping with
  | [] => None
  | (k, v) :: m => if eqb_str k key then Some v else getitem m key
  end.

(** The helper [convert] of [safe_substitute]. *)
Definition convert (mapping : list (pystr * PyVal)) (mo : Match) : Res pystr :=
  let named :=
    match named mo with
    | Some (c :: i) => Some (c :: i)
    | _ => braced mo
    end in
  match named with
  | Some key =>
      match getitem mapping key with
      | Some v => Ok (str v)
      | None => Ok (group mo)
      end
  | None =>
      match escaped mo with
      | Some _ => Ok [DOLLAR]
      | None =>
          match invalid mo with
          | Some _ => Ok (group mo)
          | None => Raise ValueError
          end
      end
  end.

Definition inspect {A} (a : A) : {b : A | a = b} := exist _ a eq_refl.

(** [pattern.sub(convert, template)]: the text between matches is copied,
    every match is replaced by what [convert] returns for it. *)
Equations? sub (conv : Match -> Res pystr) (t : pystr) : Res pystr
  by wf (length t) lt :=
  sub conv [] := Ok [];
  sub conv (c :: after) with N.eqb c DOLLAR := {
    | false := let! out := sub conv after in Ok (c :: out)
    | true with inspect (match_after_delimiter after) := {
        | exist _ (mo, rest) E :=
            let! r := conv mo in
            let! out := sub conv rest in
            Ok (r ++ out) } }.
Proof.
  clear - E.
  assert (Hspan : forall l i q, span_id l = (i, q) -> (length q <= length l)%nat).
  { induction l as [|x l IH]; intros i q; simpl.
    - intros [= <- <-]. simpl. lia.
    - destruct (is_id_char x); [|intros [= <- <-]; simpl; lia].
      destruct (span_id l) as [i' q'] eqn:Es. intros [= <- <-].
      specialize (IH _ _ eq_refl). lia. }
  assert (Hid : forall l i q, match_id l = Some (i, q) -> (length q < length l)%nat).
  { intros [|x l] i q; simpl; [discriminate|].
    destruct (is_id_start x); [|discriminate].
    destruct (span_id l) as [i' q'] eqn:Es. intros [= <- <-].
    apply Hspan in Es. lia. }
  revert E. unfold match_after_delimiter.
  destruct after as [|x t]; [intros [= <- <-]; simpl; lia|].
  destruct (x =? DOLLAR); [intros [= <- <-]; simpl; lia|].
  destruct (match_id (x :: t)) as [[i q]|] eqn:E1.
  { intros [= <- <-]. apply Hid in E1. lia. }
  destruct (x =? LBRACE); [|intros [= <- <-]; lia].
  destruct (match_id t) as [[i [|d q]]|] eqn:E2; try (intros [= <- <-]; lia).
  destruct (d =? RBRACE); intros [= <- <-]; [|lia].
  apply Hid in E2. simpl in *. lia.
Qed.

Definition safe_substitute (template : pystr) (kws : list (pystr * PyVal))
  : Res pystr :=
  sub (convert kws) template.

End Template.

(** ** Data model *)

Local Open Scope Z_scope.

(** What [main] reads of the [GitRelease] that PyGithub returns.  [name] and
    [body] may be [None]; [published_at] is a timezone-aware [datetime]. *)
Module GitRelease.
Record t := {
  id : Z;
  html_url : pystr;
  tag_name : pystr;
  name : option pystr;
  body : option pystr;
  draft : bool;
  published_at : Z;
}.
End GitRelease.

(** [class State(BaseModel)] *)
Module State.
Record t := {
  id : Z;
  html_url : pystr;
  tag_name : pystr;
  name : pystr;
  published_at : Z;
}.
End State.

(** [StateFile.states]: a [dict] from repository name to [State]. *)
Abbreviation StateMap := (gmap pystr State.t).

(** Values of the static [data] payload ([dict[str, Any]]); [main] passes
    them to [httpx.post] untouched. *)
#[local] Unset Elimination Schemes.
Inductive Any :=
| ANone
| ABool (b : bool)
| AInt (i : Z)
| AStr (s : pystr)
| AList (l : list Any)
| ADict (d : list (pystr * Any)).
#[local] Set Elimination Schemes.

(** [class Webhook(BaseModel)] *)
Module Webhook.
Record t := {
  url : pystr;
  content : option pystr;
  data : option (list (pystr * Any));
  headers : option (list (pystr * pystr));
}.
End Webhook.

(** [class Settings(BaseSettings)], once resolved.  [log_level] only filters
    what the logging module prints and is left out. *)
Module Settings.
Record t := {
  repos : list pystr;
  state_file : pystr;
  skip_draft : bool;
  webhook : option Webhook.t;
  timezone : pystr;
}.
End Settings.

(** ** Environment of a run *)

(** What [repo.get_latest_release()] does for a repository. *)
Inductive FetchResult :=
| Fetched (release : GitRelease.t)
| FetchRaises (e : GithubError).

(** The arguments of one [httpx.post] call. *)
Record Request := {
  req_url : pystr;
  req_content : option pystr;
  req_data : option (list (pystr * Any));
  req_headers : option (list (pystr * pystr));
}.

(** What [httpx.post] does: a response with a status code (redirects already
    followed), or an exception of the transport. *)
Inductive PostResult :=
| Response (status_code : Z)
| TransportError.

(** [Response.is_success] *)
Definition is_success (status_code : Z) : bool :=
  (200 <=? status_code) && (status_code <=? 299).

(** [r.raise_for_status()] raises unless [is_success]; [True] here means that
    the [try] block of [main] raised. *)
Definition post_raises (r : PostResult) : bool :=
  match r with
  | Response status_code => negb (is_success status_code)
  | TransportError => true
  end.

(** The state file as a run finds it: absent ([is_file()] false), present
    but rejected by [yaml.safe_load] or by the [StateFile] validation, or
    holding a state map.  What [yaml.safe_dump] writes is read back
    unchanged by the next run. *)
Inductive Disk :=
| Absent
| Corrupt
| Holds (states : StateMap).

Record Env := {
  get_latest_release : pystr -> FetchResult;
  post : Request -> PostResult;
  (** [published_at.astimezone(ZoneInfo(timezone)).isoformat()] *)
  isoformat_in : pystr -> Z -> pystr;
}.

(** What a run does to the outside world, in order. *)
Inductive Event :=
| EFetch (repo_name : pystr)                     (* [get_latest_release] called *)
| ELogNoNew (repo_name : pystr)                  (* log.info: No new release *)
| ELogNew (repo_name name tag_name : pystr) (published_at : Z)
                                                 (* log.info: New release *)
| EPost (repo_name : pystr) (req : Request)      (* [httpx.post] called *)
| ELogSent (repo_name : pystr)                   (* log.debug: Notification sent *)
| ELogSendFailed (repo_name : pystr)             (* log.error: Failed to send *)
| EDump (states : StateMap).                     (* state file rewritten *)

(** ** [main] *)

Section Main.

Variable cfg : Settings.t.
Variable env : Env.

(** The [State(...)] that [main] stores for a release. *)
Definition state_of (release : GitRelease.t) : State.t :=
  {| State.id := GitRelease.id release;
     State.html_url := GitRelease.html_url release;
     State.tag_name := GitRelease.tag_name release;
     State.name := str_or (GitRelease.name release) (GitRelease.tag_name release);
     State.published_at := GitRelease.published_at release |}.

(** The keyword arguments of [safe_substitute]. *)
Definition template_vars (repo_name : pystr) (release : GitRelease.t)
  : list (pystr * Template.PyVal) :=
  [ (py "repo_name", Template.VStr repo_name);
    (py "id", Template.VInt (GitRelease.id release));
    (py "html_url", Template.VStr (GitRelease.html_url release));
    (py "tag_name", Template.VStr (GitRelease.tag_name release));
    (py "name", Template.VStr
       (escape (str_or (GitRelease.name release) (GitRelease.tag_name release))));
    (py "published_at", Template.VStr
       (isoformat_in env (Settings.timezone cfg) (GitRelease.published_at release)));
    (py "body", Template.VStr (escape (str_or (GitRelease.body release) []))) ].

(** Lines 134-146: the content of the request; a [None] or empty [content]
    is passed on as it is. *)
Definition render (wh : Webhook.t) (repo_name : pystr) (release : GitRelease.t)
  : Res (option pystr) :=
  match Webhook.content wh with
  | Some (c :: t) =>
      let! out := Template.safe_substitute (c :: t) (template_vars repo_name release) in
      Ok (Some out)
  | content => Ok content
  end.

(** [prev_state and prev_state.published_at >= release.published_at] *)
Definition no_new_release (prev_state : option State.t) (release : GitRelease.t)
  : bool :=
  match prev_state with
  | Some prev => GitRelease.published_at release <=? State.published_at prev
  | None => false
  end.

(** The arguments of [httpx.post]: the rendered content and the static
    parts of the webhook configuration. *)
Definition request_of (wh : Webhook.t) (content : option pystr) : Request :=
  {| req_url := Webhook.url wh; req_content := content;
     req_data := Webhook.data wh; req_headers := Webhook.headers wh |}.

(** Lines 125-128: the message logged for a release considered new. *)
Definition new_release_event (repo_name : pystr) (release : GitRelease.t)
  : Event :=
  ELogNew repo_name
    (str_or (GitRelease.name release) (GitRelease.tag_name release))
    (GitRelease.tag_name release) (GitRelease.published_at release).

(** Lines 130-159, reached for a release that is considered new. *)
Definition notify (repo_name : pystr) (release : GitRelease.t)
  : list Event * Res unit :=
  match Settings.webhook cfg with
  | None => ([], Ok tt)
  | Some wh =>
      match render wh repo_name release with
      | Raise e => ([], Raise e)
      | Ok content =>
          let req := request_of wh content in
          if post_raises (post env req)
          then ([EPost repo_name req; ELogSendFailed repo_name], Ok tt)
          else ([EPost repo_name req; ELogSent repo_name], Ok tt)
      end
  end.

(** One iteration of [for repo_name in cfg.repos]: the events of the
    iteration, and the state map after it unless an exception escaped. *)
Definition body (states : StateMap) (repo_name : pystr)
  : list Event * Res StateMap :=
  match get_latest_release env repo_name with
  | FetchRaises e => ([EFetch repo_name], Raise (GithubException e))
  | Fetched release =>
      if Settings.skip_draft cfg && GitRelease.draft release
      then ([EFetch repo_name], Ok states)
      else
        let prev_state := states !! repo_name in
        let states' := <[repo_name := state_of release]> states in
        if no_new_release prev_state release
        then ([EFetch repo_name; ELogNoNew repo_name], Ok states')
        else
          let new := new_release_event repo_name release in
          match notify repo_name release with
          | (evs, Ok _) => (EFetch repo_name :: new :: evs, Ok states')
          | (evs, Raise e) => (EFetch repo_name :: new :: evs, Raise e)
          end
  end.

Fixpoint loop (states : StateMap) (repos : list pystr)
  : list Event * Res StateMap :=
  match repos with
  | [] => ([], Ok states)
  | repo_name :: rest =>
      match body states repo_name with
      | (evs, Ok states') =>
          let (evs', r) := loop states' rest in (evs ++ evs', r)
      | (evs, Raise e) => (evs, Raise e)
      end
  end.

(** Lines 95-100. *)
Definition load (disk : Disk) : Res StateMap :=
  match disk with
  | Absent => Ok ∅
  | Corrupt => Raise StateLoadError
  | Holds states => Ok states
  end.

(** The outcome of a run: its events, how it ended, and the state file it
    leaves behind. *)
Record Run := {
  trace : list Event;
  result : Res unit;
  disk_after : Disk;
}.

Definition main (disk : Disk) : Run :=
  match load disk with
  | Raise e => {| trace := []; result := Raise e; disk_after := disk |}
  | Ok states =>
      match loop states (Settings.repos cfg) with
      | (evs, Ok states') =>
          {| trace := evs ++ [EDump states']; result := Ok tt;
             disk_after := Holds states' |}
      | (evs, Raise e) =>
          {| trace := evs; result := Raise e; disk_after := disk |}
      end
  end.

End Main.

(** Projections of a trace. *)
Definition is_post (e : Event) : bool :=
  match e with EPost _ _ => true | _ => false end.

Definition posts (tr : list Event) : list Event := List.filter is_post tr.

Definition fetched (tr : list Event) : list pystr :=
  omap (fun e => match e with EFetch r => Some r | _ => None end) tr.

Definition posted_for (repo_name : pystr) (e : Event) : bool :=
  match e with
  | EPost r _ => bool_decide (r = repo_name)
  | _ => false
  end.

Definition is_dump (e : Event) : bool :=
  match e with EDump _ => true | _ => false end.

(** The events that do not depend on how a delivery went. *)
Definition not_delivery_log (e : Event) : bool :=
  match e with
  | ELogSent _ | ELogSendFailed _ => false
  | _ => true
  end.

(** The same environment with another behaviour of [httpx.post]. *)
Definition with_post (env : Env) (p : Request -> PostResult) : Env :=
  {| get_latest_release := get_latest_release env;
     post := p;
     isoformat_in := isoformat_in env |}.

(** The release of [r] is recorded in [states], unless it is a draft that
    the run skips. *)
Definition recorded (cfg : Settings.t) (env : Env) (states : StateMap)
  (r : pystr) : Prop :=
  exists release,
    get_latest_release env r = Fetched release /\
    (Settings.skip_draft cfg && GitRelease.draft release = false ->
     states !! r = Some (state_of release)).

(** ** Notions used to state properties of whole runs *)

(** The same configuration with another webhook setting. *)
Definition with_webhook (cfg : Settings.t) (w : option Webhook.t) : Settings.t :=
  {| Settings.repos := Settings.repos cfg;
     Settings.state_file := Settings.state_file cfg;
     Settings.skip_draft := Settings.skip_draft cfg;
     Settings.webhook := w;
     Settings.timezone := Settings.timezone cfg |}.

(** Every repository of the list has a latest release to fetch. *)
Definition all_fetched (env : Env) (repos : list pystr) : Prop :=
  Forall (fun r => exists release, get_latest_release env r = Fetched release)
    repos.

(** The entry of [r] after a pass over [repos] that started from [states]:
    the fetched release if [r] is listed and its release is not skipped, the
    entry the pass started with otherwise. *)
Definition entry_after (cfg : Settings.t) (env : Env) (repos : list pystr)
  (states : StateMap) (r : pystr) : option State.t :=
  match get_latest_release env r with
  | Fetched release =>
      if bool_decide (r ∈ repos)
         && negb (Settings.skip_draft cfg && GitRelease.draft release)
      then Some (state_of release)
      else states !! r
  | FetchRaises _ => states !! r
  end.

(** A post is made for a configured repository, to the configured webhook,
    with its static payload and headers. *)
Definition post_as_configured (cfg : Settings.t) (e : Event) : Prop :=
  match e with
  | EPost r req =>
      r ∈ Settings.repos cfg /\
      exists wh,
        Settings.webhook cfg = Some wh /\
        req_url req = Webhook.url wh /\
        req_data req = Webhook.data wh /\
        req_headers req = Webhook.headers wh
  | _ => True
  end.

(** How many times [r] is listed. *)
Definition occurrences (r : pystr) (repos : list pystr) : nat :=
  length (List.filter (fun x => bool_decide (x = r)) repos).

(** The characters that [escape] copies. *)
Definition copied_by_escape (c : N) : Prop :=
  (32 <= c)%N /\ c <> QUOTE /\ c <> BACKSLASH.

(** ** A sample configuration, used by the concrete runs below *)

Module Sample.

(** The JSON text of an object with the single member [text]. *)
Definition json_text (s : pystr) : pystr :=
  py "{" ++ [QUOTE] ++ py "text" ++ [QUOTE] ++ py ": " ++ [QUOTE] ++ s
    ++ [QUOTE] ++ py "}".

Definition release (tag : pystr) (name : option pystr) (published_at : Z)
  (draft : bool) : GitRelease.t :=
  {| GitRelease.id := 7;
     GitRelease.html_url := py "https://github.com/x/y/releases/tag/" ++ tag;
     GitRelease.tag_name := tag;
     GitRelease.name := name;
     GitRelease.body := None;
     GitRelease.draft := draft;
     GitRelease.published_at := published_at |}.

Definition hook : Webhook.t :=
  {| Webhook.url := py "https://hooks.example.org/notify";
     Webhook.content := Some (json_text (py "${repo_name} ${name}"));
     Webhook.data := None;
     Webhook.headers := None |}.

Definition cfg (repos : list pystr) (webhook : option Webhook.t) : Settings.t :=
  {| Settings.repos := repos;
     Settings.state_file := py "state.yaml";
     Settings.skip_draft := true;
     Settings.webhook := webhook;
     Settings.timezone := py "UTC" |}.

(** [x/y] has the given release; every other repository is unknown. *)
Definition fetch (release : GitRelease.t) (repo_name : pystr) : FetchResult :=
  if bool_decide (repo_name = py "x/y") then Fetched release
  else FetchRaises UnknownObject.

(** Every delivery is answered with [status_code]. *)
Definition env (release : GitRelease.t) (status_code : Z) : Env :=
  {| get_latest_release := fetch release;
     post := fun _ => Response status_code;
     isoformat_in := fun _ t => str_int t |}.

Definition v1 : GitRelease.t := release (py "v1") (Some (py "First")) 100 false.
Definition v2 : GitRelease.t := release (py "v2") (Some []) 200 false.
Definition v3_draft : GitRelease.t := release (py "v3") None 300 true.

Definition seen_v1 : StateMap := {[ py "x/y" := state_of v1 ]}.

End Sample.

(** * Properties *)

(** ** Template substitution *)

Module TemplateFacts.
Import Template.

Local Open Scope N_scope.

(** [sub] one step at a time. *)
Lemma sub_cons conv c after :
  sub conv (c :: after) =
    if c =? DOLLAR then
      let! r := conv (match_after_delimiter after).1 in
      let! out := sub conv (match_after_delimiter after).2 in
      Ok (r ++ out)
    else let! out := sub conv after in Ok (c :: out).
Proof.
  simp sub. destruct (c =? DOLLAR); simpl; [|reflexivity].
  unfold inspect. destruct (match_after_delimiter after) as [mo rest].
  reflexivity.
Qed.

Lemma match_id_nonempty l i r : match_id l = Some (i, r) -> i <> [].
Proof.
  destruct l as [|c t]; simpl; [discriminate|].
  destruct (is_id_start c); [|discriminate].
  destruct (span_id t). intros [= <- <-]. discriminate.
Qed.

(** Every match the pattern can produce sets one of its groups. *)
Lemma match_after_delimiter_cases after :
  let mo := (match_after_delimiter after).1 in
  mo = mk_escaped \/ mo = mk_invalid \/
  (exists c i, mo = mk_named (c :: i)) \/ (exists c i, mo = mk_braced (c :: i)).
Proof.
  cbv zeta. destruct (match_after_delimiter after) as [mo rest] eqn:E.
  cbn [fst]. revert E. unfold match_after_delimiter.
  destruct after as [|c t]; [intros [= <- <-]; auto|].
  destruct (c =? DOLLAR); [intros [= <- <-]; auto|].
  destruct (match_id (c :: t)) as [[i r]|] eqn:E1.
  { intros [= <- <-]. right; right; left. apply match_id_nonempty in E1.
    destruct i as [|x i]; [congruence|]. do 2 eexists; reflexivity. }
  destruct (c =? LBRACE); [|intros [= <- <-]; auto].
  destruct (match_id t) as [[i [|d r]]|] eqn:E2; try (intros [= <- <-]; auto).
  destruct (d =? RBRACE); intros [= <- <-]; [|auto].
  right; right; right. apply match_id_nonempty in E2.
  destruct i as [|x i]; [congruence|]. do 2 eexists; reflexivity.
Qed.

(** So the last line of [convert], the only one that raises, is never
    reached. *)
Lemma convert_total kws after :
  exists r, convert kws (match_after_delimiter after).1 = Ok r.
Proof.
  destruct (match_after_delimiter_cases after)
    as [-> | [-> | [(c & i & ->) | (c & i & ->)]]];
    unfold convert; simpl; eauto;
    destruct (getitem kws (c :: i)); eauto.
Qed.

Lemma sub_total conv t :
  (forall after, exists r, conv (match_after_delimiter after).1 = Ok r) ->
  exists out, sub conv t = Ok out.
Proof.
  intros Hconv. funelim (sub conv t).
  - eauto.
  - match goal with
    | IH : _ -> exists out, sub conv after = Ok out |- _ =>
        destruct (IH Hconv) as [out ->]
    end.
    simpl. eauto.
  - destruct (Hconv after) as [r Hr].
    match goal with
    | E : match_after_delimiter after = _ |- _ => rewrite E in Hr
    end.
    simpl in Hr. rewrite Hr. simpl.
    match goal with
    | IH : pystr -> _ -> exists out, sub conv rest = Ok out |- _ =>
        destruct (IH [] Hconv) as [out ->]
    end.
    simpl. eauto.
Qed.

(** [safe_substitute] returns for every template and every mapping. *)
Lemma safe_substitute_total template kws :
  exists out, safe_substitute template kws = Ok out.
Proof. apply sub_total. intros after. apply convert_total. Qed.

(** A character other than the delimiter is copied. *)
Lemma safe_substitute_plain c t kws out :
  c <> DOLLAR ->
  safe_substitute t kws = Ok out ->
  safe_substitute (c :: t) kws = Ok (c :: out).
Proof.
  unfold safe_substitute. intros Hc Ht. rewrite sub_cons.
  destruct (N.eqb_spec c DOLLAR) as [->|_]; [congruence|].
  rewrite Ht. reflexivity.
Qed.

Lemma span_id_app k rest :
  forallb is_id_char k = true -> not_id_char_first rest = true ->
  span_id (k ++ rest) = (k, rest).
Proof.
  intros Hk Hrest. induction k as [|c k IH]; simpl in *.
  - destruct rest as [|d rest]; [reflexivity|]. simpl in *.
    destruct (is_id_char d); [discriminate|reflexivity].
  - apply andb_prop in Hk as [-> Hk]. rewrite (IH Hk). reflexivity.
Qed.

Lemma match_id_app k rest :
  is_identifier k = true -> not_id_char_first rest = true ->
  match_id (k ++ rest) = Some (k, rest).
Proof.
  destruct k as [|c k]; [discriminate|]. simpl.
  intros [-> Hk]%andb_prop Hrest. rewrite (span_id_app _ _ Hk Hrest).
  reflexivity.
Qed.

(** The pattern on a braced identifier, and on a bare one. *)
Lemma match_braced k rest :
  is_identifier k = true ->
  match_after_delimiter (LBRACE :: k ++ RBRACE :: rest) = (mk_braced k, rest).
Proof.
  intros Hk. unfold match_after_delimiter.
  change (LBRACE =? DOLLAR) with false. cbv iota.
  change (match_id (LBRACE :: k ++ RBRACE :: rest)) with (@None (pystr * pystr)).
  change (LBRACE =? LBRACE) with true. cbv iota.
  rewrite (match_id_app k (RBRACE :: rest) Hk eq_refl).
  reflexivity.
Qed.

Lemma match_named k rest :
  is_identifier k = true -> not_id_char_first rest = true ->
  match_after_delimiter (k ++ rest) = (mk_named k, rest).
Proof.
  intros Hk Hrest.
  pose proof (match_id_app k rest Hk Hrest) as E.
  destruct k as [|c k]; [discriminate|].
  unfold match_after_delimiter. cbn [app] in *. cbv iota.
  destruct (N.eqb_spec c DOLLAR) as [->|_]; [discriminate|].
  rewrite E. reflexivity.
Qed.

Lemma convert_named_or_braced kws mo k :
  is_identifier k = true ->
  mo = mk_named k \/ mo = mk_braced k ->
  convert kws mo =
    match getitem kws k with
    | Some v => Ok (str v)
    | None => Ok (group mo)
    end.
Proof.
  destruct k as [|c k]; [discriminate|]. intros _ [-> | ->]; reflexivity.
Qed.
Lemma getitem_None kws k :
  getitem kws k = None <-> k ∉ List.map fst kws.
Proof.
  induction kws as [|[k' v] kws IH]; simpl.
  - split; [intros _; apply not_elem_of_nil|reflexivity].
  - unfold eqb_str. rewrite not_elem_of_cons. case_bool_decide as Hk.
    + split; [discriminate|]. intros [Hne _]. congruence.
    + rewrite IH. split; [intros ?; split; congruence|intros [_ ?]; assumption].
Qed.

(** A braced placeholder is replaced by its value, or left as it is when
    the mapping has no such key. *)
Lemma safe_substitute_braced k rest kws out :
  is_identifier k = true ->
  safe_substitute rest kws = Ok out ->
  safe_substitute (DOLLAR :: LBRACE :: k ++ RBRACE :: rest) kws =
    Ok (match getitem kws k with
        | Some v => str v
        | None => DOLLAR :: LBRACE :: k ++ [RBRACE]
        end ++ out).
Proof.
  unfold safe_substitute. intros Hk Hrest. rewrite sub_cons.
  change (DOLLAR =? DOLLAR) with true. cbv iota.
  rewrite (match_braced k rest Hk). cbn [fst snd].
  rewrite (convert_named_or_braced kws (mk_braced k) k Hk) by auto.
  rewrite Hrest. destruct (getitem kws k); reflexivity.
Qed.

(** The same for a bare placeholder, which ends where the identifier does. *)
Lemma safe_substitute_named k rest kws out :
  is_identifier k = true -> not_id_char_first rest = true ->
  safe_substitute rest kws = Ok out ->
  safe_substitute (DOLLAR :: k ++ rest) kws =
    Ok (match getitem kws k with
        | Some v => str v
        | None => DOLLAR :: k
        end ++ out).
Proof.
  unfold safe_substitute. intros Hk Hnext Hrest. rewrite sub_cons.
  change (DOLLAR =? DOLLAR) with true. cbv iota.
  rewrite (match_named k rest Hk Hnext). cbn [fst snd].
  rewrite (convert_named_or_braced kws (mk_named k) k Hk) by auto.
  rewrite Hrest. destruct (getitem kws k); reflexivity.
Qed.

Lemma safe_substitute_nil kws : safe_substitute [] kws = Ok [].
Proof. reflexivity. Qed.

(** Text without a delimiter in front of a template is copied in front of
    its rendering. *)
Lemma safe_substitute_prefix a t kws out :
  Forall (fun c => c <> DOLLAR) a ->
  safe_substitute t kws = Ok out ->
  safe_substitute (a ++ t) kws = Ok (a ++ out).
Proof.
  intros Ha Ht. induction Ha as [|c a Hc _ IH]; [exact Ht|].
  simpl. apply safe_substitute_plain; assumption.
Qed.
End TemplateFacts.

(** ** [escape] and the JSON reader *)

Module JsonFacts.
Import Json.

Local Open Scope N_scope.

Lemma slice_dumps s : slice_1_m1 (dumps s) = concat (List.map replace s).
Proof.
  unfold slice_1_m1, dumps, encode_basestring.
  set (b := concat (List.map replace s)).
  replace (length (QUOTE :: b ++ [QUOTE]) - 1 - 1)%nat with (length b)
    by (simpl; rewrite length_app; simpl; lia).
  simpl. rewrite drop_0. apply take_app_length.
Qed.

Lemma below_32_cases c : c < 32 -> c ∈ (N.of_nat <$> seq 0 32).
Proof.
  intros Hc. apply list_elem_of_fmap. exists (N.to_nat c). split; [lia|].
  apply list_elem_of_In, in_seq. lia.
Qed.

Lemma hex4_u_escape c :
  c < 32 ->
  hex4 (hexdigit (c / 4096 mod 16)) (hexdigit (c / 256 mod 16))
       (hexdigit (c / 16 mod 16)) (hexdigit (c mod 16)) = Some c.
Proof.
  intros Hc. apply below_32_cases in Hc. revert c Hc.
  apply Forall_forall. vm_compute. repeat constructor.
Qed.

(** The reader undoes [replace], whatever follows. *)
Lemma scanstring_replace c l :
  scanstring (replace c ++ l) = push c (scanstring l).
Proof.
  unfold replace.
  destruct (N.eqb_spec c BACKSLASH) as [->|H1]; [reflexivity|].
  destruct (N.eqb_spec c QUOTE) as [->|H2]; [reflexivity|].
  destruct (N.eqb_spec c 8) as [->|H3]; [reflexivity|].
  destruct (N.eqb_spec c 12) as [->|H4]; [reflexivity|].
  destruct (N.eqb_spec c 10) as [->|H5]; [reflexivity|].
  destruct (N.eqb_spec c 13) as [->|H6]; [reflexivity|].
  destruct (N.eqb_spec c 9) as [->|H7]; [reflexivity|].
  destruct (N.ltb_spec c 32) as [Hlt|Hge].
  - unfold u_escape. cbn [app scanstring].
    change (BACKSLASH =? QUOTE) with false.
    change (BACKSLASH =? BACKSLASH) with true.
    change (117 =? 117) with true. cbv iota.
    rewrite (hex4_u_escape c Hlt). reflexivity.
  - cbn [app scanstring].
    destruct (N.eqb_spec c QUOTE); [congruence|].
    destruct (N.eqb_spec c BACKSLASH); [congruence|].
    destruct (N.ltb_spec c 32); [lia|]. reflexivity.
Qed.

Lemma scanstring_escaped s l :
  scanstring (concat (List.map replace s) ++ l) =
    match scanstring l with
    | Some (d, rest) => Some (s ++ d, rest)
    | None => None
    end.
Proof.
  induction s as [|c s IH]; simpl.
  - destruct (scanstring l) as [[d rest]|]; reflexivity.
  - rewrite <- app_assoc, scanstring_replace, IH.
    destruct (scanstring l) as [[d rest]|]; reflexivity.
Qed.
End JsonFacts.

(** ** One iteration of the loop *)

Section BodyFacts.

Variable cfg : Settings.t.
Variable env : Env.

Lemma render_total wh repo_name release :
  exists content, render cfg env wh repo_name release = Ok content.
Proof.
  unfold render. destruct (Webhook.content wh) as [[|c t]|]; eauto.
  destruct (TemplateFacts.safe_substitute_total (c :: t)
              (template_vars cfg env repo_name release)) as [out ->].
  simpl. eauto.
Qed.

Lemma notify_spec repo_name release :
  match Settings.webhook cfg with
  | None => notify cfg env repo_name release = ([], Ok tt)
  | Some wh =>
      exists content,
        render cfg env wh repo_name release = Ok content /\
        notify cfg env repo_name release =
          ([EPost repo_name (request_of wh content);
            if post_raises (post env (request_of wh content))
            then ELogSendFailed repo_name else ELogSent repo_name], Ok tt)
  end.
Proof.
  unfold notify. destruct (Settings.webhook cfg) as [wh|]; [|reflexivity].
  destruct (render_total wh repo_name release) as [content Hc].
  exists content. split; [assumption|]. rewrite Hc. fold (request_of wh content).
  destruct (post_raises _); reflexivity.
Qed.

Lemma notify_ok repo_name release :
  (notify cfg env repo_name release).2 = Ok tt.
Proof.
  pose proof (notify_spec repo_name release) as H.
  destruct (Settings.webhook cfg); [destruct H as (? & _ & ->)|rewrite H];
    reflexivity.
Qed.

(** [body] for a release that is fetched and not skipped. *)
Lemma body_fetched states repo_name release :
  get_latest_release env repo_name = Fetched release ->
  Settings.skip_draft cfg && GitRelease.draft release = false ->
  body cfg env states repo_name =
    (EFetch repo_name ::
       (if no_new_release (states !! repo_name) release
        then [ELogNoNew repo_name]
        else new_release_event repo_name release ::
               (notify cfg env repo_name release).1),
     Ok (<[repo_name := state_of release]> states)).
Proof.
  intros Hf Hs. unfold body. rewrite Hf, Hs.
  destruct (no_new_release _ release); [reflexivity|].
  pose proof (notify_ok repo_name release) as Hn.
  destruct (notify cfg env repo_name release) as [evs [[]|e]];
    simpl in Hn; [reflexivity|discriminate].
Qed.

Lemma body_skipped states repo_name release :
  get_latest_release env repo_name = Fetched release ->
  Settings.skip_draft cfg && GitRelease.draft release = true ->
  body cfg env states repo_name = ([EFetch repo_name], Ok states).
Proof. intros Hf Hs. unfold body. rewrite Hf, Hs. reflexivity. Qed.

Lemma body_fetch_raises states repo_name e :
  get_latest_release env repo_name = FetchRaises e ->
  body cfg env states repo_name =
    ([EFetch repo_name], Raise (GithubException e)).
Proof. intros Hf. unfold body. rewrite Hf. reflexivity. Qed.

End BodyFacts.

(** ** The whole loop *)

Section LoopFacts.

Variable cfg : Settings.t.
Variable env : Env.

(** Case analysis on what [body] finds for [x]. *)
Ltac body_cases states x :=
  let rel := fresh "rel" in
  let e := fresh "e" in
  let Hf := fresh "Hf" in
  let Hs := fresh "Hs" in
  destruct (get_latest_release env x) as [rel|e] eqn:Hf;
  [ destruct (Settings.skip_draft cfg && GitRelease.draft rel) eqn:Hs;
    [ rewrite (body_skipped cfg env states x rel Hf Hs)
    | rewrite (body_fetched cfg env states x rel Hf Hs) ]
  | rewrite (body_fetch_raises cfg env states x e Hf) ].

Lemma notify_posts_own r x release :
  x <> r ->
  Forall (fun e => posted_for r e = false) (notify cfg env x release).1.
Proof.
  intros Hx. pose proof (notify_spec cfg env x release) as H.
  assert (Hp : forall req, posted_for r (EPost x req) = false).
  { intros req. simpl. apply bool_decide_eq_false. assumption. }
  destruct (Settings.webhook cfg).
  - destruct H as (content & _ & ->). simpl.
    repeat constructor; [apply Hp|]. destruct (post_raises _); reflexivity.
  - rewrite H. constructor.
Qed.

(** An iteration posts for its own repository only ... *)
Lemma body_posts_own r states x evs res :
  body cfg env states x = (evs, res) -> x <> r ->
  Forall (fun e => posted_for r e = false) evs.
Proof.
  intros Hb Hx. revert Hb. body_cases states x; intros [= <- <-].
  - repeat constructor.
  - constructor; [reflexivity|].
    destruct (no_new_release _ rel); [repeat constructor|].
    constructor; [reflexivity|]. apply notify_posts_own, Hx.
  - repeat constructor.
Qed.

(** ... and writes its own entry only. *)
Lemma body_frame r states x evs states' :
  body cfg env states x = (evs, Ok states') -> x <> r ->
  states' !! r = states !! r.
Proof.
  intros Hb Hx. revert Hb. body_cases states x; intros [= <- <-].
  - reflexivity.
  - apply lookup_insert_ne, Hx.
Qed.

Lemma body_of_fetched states x release :
  get_latest_release env x = Fetched release ->
  exists evs states', body cfg env states x = (evs, Ok states').
Proof.
  intros Hf.
  destruct (Settings.skip_draft cfg && GitRelease.draft release) eqn:Hs.
  - rewrite (body_skipped cfg env states x release Hf Hs). eauto.
  - rewrite (body_fetched cfg env states x release Hf Hs). eauto.
Qed.

Lemma notify_fetched x release : fetched (notify cfg env x release).1 = [].
Proof.
  pose proof (notify_spec cfg env x release) as H.
  destruct (Settings.webhook cfg).
  - destruct H as (content & _ & ->). simpl. destruct (post_raises _); reflexivity.
  - rewrite H. reflexivity.
Qed.

Lemma notify_no_dump x release :
  Forall (fun e => is_dump e = false) (notify cfg env x release).1.
Proof.
  pose proof (notify_spec cfg env x release) as H.
  destruct (Settings.webhook cfg).
  - destruct H as (content & _ & ->). simpl.
    repeat constructor. destruct (post_raises _); reflexivity.
  - rewrite H. constructor.
Qed.

(** Every iteration calls [get_latest_release] once, for its repository,
    and never writes the state file. *)
Lemma body_trace states x evs res :
  body cfg env states x = (evs, res) ->
  fetched evs = [x] /\ Forall (fun e => is_dump e = false) evs.
Proof.
  body_cases states x; intros [= <- <-].
  - split; [reflexivity|repeat constructor].
  - destruct (no_new_release _ rel).
    + split; [reflexivity|repeat constructor].
    + split.
      * change (fetched (EFetch x :: new_release_event x rel ::
                  (notify cfg env x rel).1))
          with (x :: fetched (notify cfg env x rel).1).
        rewrite notify_fetched. reflexivity.
      * repeat constructor. apply notify_no_dump.
  - split; [reflexivity|repeat constructor].
Qed.

Lemma loop_cons states x rest :
  loop cfg env states (x :: rest) =
    match body cfg env states x with
    | (evs, Ok states') =>
        ((evs ++ (loop cfg env states' rest).1), (loop cfg env states' rest).2)
    | (evs, Raise e) => (evs, Raise e)
    end.
Proof.
  simpl. destruct (body cfg env states x) as [evs [states'|e]]; [|reflexivity].
  destruct (loop cfg env states' rest). reflexivity.
Qed.

(** The loop stops at the first repository whose fetch raises. *)
Lemma loop_stops_at_fetch_error pre r post e states :
  Forall (fun x => exists rel, get_latest_release env x = Fetched rel) pre ->
  get_latest_release env r = FetchRaises e ->
  exists evs,
    loop cfg env states (pre ++ r :: post) = (evs, Raise (GithubException e)) /\
    fetched evs = pre ++ [r] /\
    Forall (fun ev => is_dump ev = false) evs /\
    Forall (fun ev => posted_for r ev = false) evs.
Proof.
  intros Hpre Hr. revert states.
  induction Hpre as [|x pre [rel Hx] _ IH]; intros states.
  - simpl. rewrite (body_fetch_raises cfg env states r e Hr).
    eexists. split; [reflexivity|]. repeat constructor.
  - change ((x :: pre) ++ r :: post) with (x :: (pre ++ r :: post)).
    rewrite loop_cons.
    destruct (body_of_fetched states x rel Hx) as (evs & states' & Hb).
    rewrite Hb. destruct (IH states') as (evs' & -> & Hfe & Hd & Hp).
    assert (x <> r) by congruence.
    destruct (body_trace _ _ _ _ Hb) as [Hfx Hdx].
    exists (evs ++ evs'). split; [reflexivity|]. split; [|split].
    + unfold fetched in *. rewrite omap_app, Hfx, Hfe. reflexivity.
    + apply Forall_app; auto.
    + apply Forall_app. split; [|assumption].
      eapply body_posts_own; eauto.
Qed.

(** A repository whose release is a skipped draft: the pass neither
    touches its entry nor posts for it. *)
Lemma loop_skipped_frame r release repos states evs res :
  get_latest_release env r = Fetched release ->
  Settings.skip_draft cfg && GitRelease.draft release = true ->
  loop cfg env states repos = (evs, res) ->
  Forall (fun ev => posted_for r ev = false) evs /\
  forall states', res = Ok states' -> states' !! r = states !! r.
Proof.
  intros Hf Hs. revert states evs res.
  induction repos as [|x rest IH]; intros states evs res.
  - simpl. intros [= <- <-]. split; [constructor|]. intros ? [= <-]. reflexivity.
  - rewrite loop_cons.
    destruct (body cfg env states x) as [evx [stx|e]] eqn:Hb.
    + destruct (loop cfg env stx rest) as [evr resr] eqn:Hl.
      simpl. intros [= <- <-].
      destruct (IH _ _ _ Hl) as [Hp Hst].
      assert (Hx : Forall (fun ev => posted_for r ev = false) evx /\
                   stx !! r = states !! r).
      { destruct (decide (x = r)) as [->|Hne].
        - rewrite (body_skipped cfg env states r release Hf Hs) in Hb.
          injection Hb as <- <-. split; [repeat constructor|reflexivity].
        - split; [eapply body_posts_own; eauto|eapply body_frame; eauto]. }
      destruct Hx as [Hpx Hsx]. split; [apply Forall_app; auto|].
      intros states' Hres. rewrite (Hst _ Hres). exact Hsx.
    + intros [= <- <-]. split; [|discriminate].
      destruct (decide (x = r)) as [->|Hne].
      * rewrite (body_skipped cfg env states r release Hf Hs) in Hb.
        discriminate.
      * eapply body_posts_own; eauto.
Qed.

End LoopFacts.

(** ** Two passes in a row, and passes that differ in the deliveries *)

Section PassFacts.

Variable cfg : Settings.t.
Variable env : Env.

Lemma body_keeps_recorded r release states x evs states' :
  get_latest_release env r = Fetched release ->
  states !! r = Some (state_of release) ->
  body cfg env states x = (evs, Ok states') ->
  states' !! r = Some (state_of release).
Proof.
  intros Hf Hr Hb. destruct (decide (x = r)) as [->|Hne].
  - destruct (Settings.skip_draft cfg && GitRelease.draft release) eqn:Hs.
    + rewrite (body_skipped cfg env states r release Hf Hs) in Hb.
      injection Hb as _ <-. exact Hr.
    + rewrite (body_fetched cfg env states r release Hf Hs) in Hb.
      injection Hb as _ <-. apply lookup_insert_eq.
  - rewrite (body_frame cfg env r states x evs states' Hb Hne). exact Hr.
Qed.

Lemma loop_keeps_recorded r release repos states evs states' :
  get_latest_release env r = Fetched release ->
  states !! r = Some (state_of release) ->
  loop cfg env states repos = (evs, Ok states') ->
  states' !! r = Some (state_of release).
Proof.
  intros Hf. revert states evs.
  induction repos as [|x rest IH]; intros states evs Hr.
  - simpl. intros [= <- <-]. exact Hr.
  - rewrite loop_cons.
    destruct (body cfg env states x) as [evx [stx|e]] eqn:Hb; [|discriminate].
    destruct (loop cfg env stx rest) as [evr resr] eqn:Hl. simpl.
    intros [= <- ->]. eapply IH; [|exact Hl].
    eapply body_keeps_recorded; eauto.
Qed.

(** After a pass that completed, every configured repository whose release
    was not skipped has that release recorded. *)
Lemma loop_records repos states evs states' :
  loop cfg env states repos = (evs, Ok states') ->
  Forall (recorded cfg env states') repos.
Proof.
  revert states evs. induction repos as [|x rest IH]; intros states evs.
  - constructor.
  - rewrite loop_cons.
    destruct (body cfg env states x) as [evx [stx|e]] eqn:Hb; [|discriminate].
    destruct (loop cfg env stx rest) as [evr resr] eqn:Hl. simpl.
    intros [= <- ->]. constructor; [|eapply IH; exact Hl].
    destruct (get_latest_release env x) as [rel|e] eqn:Hf.
    + exists rel. split; [exact Hf|]. intros Hs.
      eapply loop_keeps_recorded; [exact Hf| |exact Hl].
      rewrite (body_fetched cfg env states x rel Hf Hs) in Hb.
      injection Hb as _ <-. apply lookup_insert_eq.
    + rewrite (body_fetch_raises cfg env states x e Hf) in Hb. discriminate.
Qed.

Lemma no_new_release_same release :
  no_new_release (Some (state_of release)) release = true.
Proof. simpl. apply Z.leb_refl. Qed.

(** A pass over repositories that are all recorded changes nothing and
    posts nothing. *)
Lemma loop_recorded_quiet repos states :
  Forall (recorded cfg env states) repos ->
  exists evs,
    loop cfg env states repos = (evs, Ok states) /\ posts evs = [].
Proof.
  induction 1 as [|x rest (rel & Hf & Hrec) _ (evr & Hl & Hp)].
  - exists []. split; reflexivity.
  - rewrite loop_cons.
    destruct (Settings.skip_draft cfg && GitRelease.draft rel) eqn:Hs.
    + rewrite (body_skipped cfg env states x rel Hf Hs), Hl.
      eexists. split; [reflexivity|]. simpl. exact Hp.
    + rewrite (body_fetched cfg env states x rel Hf Hs).
      rewrite (Hrec eq_refl), no_new_release_same.
      rewrite (insert_id states x _ (Hrec eq_refl)), Hl.
      eexists. split; [reflexivity|]. simpl. exact Hp.
Qed.

(** What a delivery returns reaches nothing but the two messages logged
    about it. *)
Lemma notify_post_independent p x release :
  (notify cfg (with_post env p) x release).2 = (notify cfg env x release).2 /\
  List.filter not_delivery_log (notify cfg (with_post env p) x release).1 =
  List.filter not_delivery_log (notify cfg env x release).1.
Proof.
  unfold notify. destruct (Settings.webhook cfg) as [wh|]; [|split; reflexivity].
  change (render cfg (with_post env p) wh x release)
    with (render cfg env wh x release).
  destruct (render cfg env wh x release) as [content|e]; [|split; reflexivity].
  destruct (post_raises (post (with_post env p) _)),
           (post_raises (post env _)); split; reflexivity.
Qed.

Lemma body_post_independent p states x :
  (body cfg (with_post env p) states x).2 = (body cfg env states x).2 /\
  List.filter not_delivery_log (body cfg (with_post env p) states x).1 =
  List.filter not_delivery_log (body cfg env states x).1.
Proof.
  unfold body.
  change (get_latest_release (with_post env p) x)
    with (get_latest_release env x).
  destruct (get_latest_release env x) as [rel|e]; [|split; reflexivity].
  destruct (Settings.skip_draft cfg && GitRelease.draft rel); [split; reflexivity|].
  destruct (no_new_release (states !! x) rel); [split; reflexivity|].
  destruct (notify_post_independent p x rel) as [H2 H1].
  destruct (notify cfg (with_post env p) x rel) as [ev' [[]|e']],
           (notify cfg env x rel) as [ev [[]|e]];
    simpl in *; try discriminate; split; congruence.
Qed.

Lemma loop_post_independent p repos states :
  (loop cfg (with_post env p) states repos).2 = (loop cfg env states repos).2 /\
  List.filter not_delivery_log (loop cfg (with_post env p) states repos).1 =
  List.filter not_delivery_log (loop cfg env states repos).1.
Proof.
  revert states. induction repos as [|x rest IH]; intros states.
  - split; reflexivity.
  - rewrite !loop_cons.
    destruct (body_post_independent p states x) as [H2 H1].
    destruct (body cfg (with_post env p) states x) as [ev' [st'|e']],
             (body cfg env states x) as [ev [st|e]];
      simpl in *; try discriminate.
    + injection H2 as ->. destruct (IH st) as [I2 I1].
      split; [exact I2|]. rewrite !List.filter_app. congruence.
    + split; congruence.
Qed.

End PassFacts.

(** * The claims *)

(** ** C1: first observation *)

(** C1, as stated, fails.  With a webhook configured, an empty state map and
    a published release of [x/y], the iteration for [x/y] posts a
    notification, and so does the whole run started without a state file. *)
Lemma first_observation_is_notified :
  get_latest_release (Sample.env Sample.v2 200) (py "x/y") = Fetched Sample.v2 /\
  Settings.skip_draft (Sample.cfg [py "x/y"] (Some Sample.hook))
    && GitRelease.draft Sample.v2 = false /\
  (∅ : StateMap) !! py "x/y" = None /\
  posts (body (Sample.cfg [py "x/y"] (Some Sample.hook))
           (Sample.env Sample.v2 200) ∅ (py "x/y")).1 =
    [EPost (py "x/y")
       (request_of Sample.hook (Some (Sample.json_text (py "x/y v2"))))] /\
  posts (trace (main (Sample.cfg [py "x/y"] (Some Sample.hook))
                  (Sample.env Sample.v2 200) Absent)) <> [].
Proof. vm_compute. repeat split; discriminate. Qed.

(** C1, amended.  When the fetch succeeds, the release is not a skipped draft
    and the repository has no prior entry, the iteration records the current
    snapshot and treats the release as new: it logs it as a new release and,
    if a webhook is configured, renders and posts exactly one notification
    for it; with no webhook it posts nothing. *)
Theorem first_observation_recorded_and_notified
  (cfg : Settings.t) (env : Env) (states : StateMap) (repo_name : pystr)
  (release : GitRelease.t) :
  get_latest_release env repo_name = Fetched release ->
  Settings.skip_draft cfg && GitRelease.draft release = false ->
  states !! repo_name = None ->
  exists evs,
    body cfg env states repo_name =
      (EFetch repo_name :: new_release_event repo_name release :: evs,
       Ok (<[repo_name := state_of release]> states)) /\
    match Settings.webhook cfg with
    | None => evs = []
    | Some wh =>
        exists content,
          render cfg env wh repo_name release = Ok content /\
          posts evs = [EPost repo_name (request_of wh content)]
    end.
Proof.
  intros Hf Hs Hnone.
  rewrite (body_fetched cfg env states repo_name release Hf Hs), Hnone.
  simpl no_new_release. cbv iota.
  exists (notify cfg env repo_name release).1. split; [reflexivity|].
  pose proof (notify_spec cfg env repo_name release) as Hn.
  destruct (Settings.webhook cfg) as [wh|].
  - destruct Hn as (content & Hc & ->). exists content. split; [exact Hc|].
    simpl. destruct (post_raises _); reflexivity.
  - rewrite Hn. reflexivity.
Qed.

Lemma first_observation_recorded_and_notified_witness :
  get_latest_release (Sample.env Sample.v2 200) (py "x/y") = Fetched Sample.v2 /\
  Settings.skip_draft (Sample.cfg [py "x/y"] (Some Sample.hook))
    && GitRelease.draft Sample.v2 = false /\
  (∅ : StateMap) !! py "x/y" = None /\
  exists evs,
    body (Sample.cfg [py "x/y"] (Some Sample.hook)) (Sample.env Sample.v2 200)
      ∅ (py "x/y") =
      (EFetch (py "x/y") :: new_release_event (py "x/y") Sample.v2 :: evs,
       Ok (<[py "x/y" := state_of Sample.v2]> ∅)) /\
    match Settings.webhook (Sample.cfg [py "x/y"] (Some Sample.hook)) with
    | None => evs = []
    | Some wh =>
        exists content,
          render (Sample.cfg [py "x/y"] (Some Sample.hook))
            (Sample.env Sample.v2 200) wh (py "x/y") Sample.v2 = Ok content /\
          posts evs = [EPost (py "x/y") (request_of wh content)]
    end.
Proof.
  split; [reflexivity|]. split; [reflexivity|]. split; [reflexivity|].
  apply (first_observation_recorded_and_notified
           (Sample.cfg [py "x/y"] (Some Sample.hook)) (Sample.env Sample.v2 200)
           ∅ (py "x/y") Sample.v2); reflexivity.
Defined.

(** ** C2: a fetch that fails *)

(** C2, as stated, fails.  [a/a] is configured before [x/y] and its fetch
    raises: the run ends with that exception, [x/y] is never fetched and the
    state file is not rewritten. *)
Lemma fetch_error_aborts_the_run :
  get_latest_release (Sample.env Sample.v2 200) (py "a/a")
    = FetchRaises UnknownObject /\
  Settings.repos (Sample.cfg [py "a/a"; py "x/y"] (Some Sample.hook))
    = [py "a/a"; py "x/y"] /\
  result (main (Sample.cfg [py "a/a"; py "x/y"] (Some Sample.hook))
            (Sample.env Sample.v2 200) (Holds Sample.seen_v1))
    = Raise (GithubException UnknownObject) /\
  fetched (trace (main (Sample.cfg [py "a/a"; py "x/y"] (Some Sample.hook))
                    (Sample.env Sample.v2 200) (Holds Sample.seen_v1)))
    = [py "a/a"] /\
  existsb is_dump
    (trace (main (Sample.cfg [py "a/a"; py "x/y"] (Some Sample.hook))
              (Sample.env Sample.v2 200) (Holds Sample.seen_v1))) = false.
Proof. vm_compute. repeat split. Qed.

(** C2, amended.  A fetch that raises (not-found or any other error) is not
    caught: the pass stops at that repository.  The repositories before it
    have been fetched, none after it is; nothing is posted for it; the state
    file is not rewritten, so its stored entry, like every other, stays as
    the run found it. *)
Theorem fetch_error_stops_the_pass
  (cfg : Settings.t) (env : Env) (disk : Disk) (states : StateMap)
  (pre post : list pystr) (r : pystr) (e : GithubError) :
  load disk = Ok states ->
  Settings.repos cfg = pre ++ r :: post ->
  Forall (fun x => exists rel, get_latest_release env x = Fetched rel) pre ->
  get_latest_release env r = FetchRaises e ->
  result (main cfg env disk) = Raise (GithubException e) /\
  disk_after (main cfg env disk) = disk /\
  fetched (trace (main cfg env disk)) = pre ++ [r] /\
  Forall (fun ev => is_dump ev = false) (trace (main cfg env disk)) /\
  Forall (fun ev => posted_for r ev = false) (trace (main cfg env disk)).
Proof.
  intros Hload Hrepos Hpre Hr. unfold main. rewrite Hload, Hrepos.
  destruct (loop_stops_at_fetch_error cfg env pre r post e states Hpre Hr)
    as (evs & -> & Hfe & Hd & Hp).
  simpl. auto.
Qed.

Lemma fetch_error_stops_the_pass_witness :
  result (main (Sample.cfg [py "x/y"; py "a/a"; py "x/y"] (Some Sample.hook))
            (Sample.env Sample.v2 200) (Holds Sample.seen_v1))
    = Raise (GithubException UnknownObject) /\
  disk_after (main (Sample.cfg [py "x/y"; py "a/a"; py "x/y"] (Some Sample.hook))
                (Sample.env Sample.v2 200) (Holds Sample.seen_v1))
    = Holds Sample.seen_v1 /\
  fetched (trace (main (Sample.cfg [py "x/y"; py "a/a"; py "x/y"]
                          (Some Sample.hook))
                    (Sample.env Sample.v2 200) (Holds Sample.seen_v1)))
    = [py "x/y"] ++ [py "a/a"] /\
  Forall (fun ev => is_dump ev = false)
    (trace (main (Sample.cfg [py "x/y"; py "a/a"; py "x/y"] (Some Sample.hook))
              (Sample.env Sample.v2 200) (Holds Sample.seen_v1))) /\
  Forall (fun ev => posted_for (py "a/a") ev = false)
    (trace (main (Sample.cfg [py "x/y"; py "a/a"; py "x/y"] (Some Sample.hook))
              (Sample.env Sample.v2 200) (Holds Sample.seen_v1))).
Proof.
  apply (fetch_error_stops_the_pass
           (Sample.cfg [py "x/y"; py "a/a"; py "x/y"] (Some Sample.hook))
           (Sample.env Sample.v2 200) (Holds Sample.seen_v1) Sample.seen_v1
           [py "x/y"] [py "x/y"] (py "a/a") UnknownObject).
  - reflexivity.
  - reflexivity.
  - constructor; [exists Sample.v2; reflexivity|constructor].
  - reflexivity.
Defined.

(** ** C3: monotonicity *)

(** C3.  For a repository with a prior entry published at [T1] and a
    fetched, non-skipped release published at [T2]: the release is treated
    as new (the notification section is entered) iff [T1 < T2]; with a
    webhook configured a notification is posted iff [T1 < T2]; when
    [T2 <= T1] nothing is posted; and in every case the entry is replaced by
    the current snapshot (id, url, tag, name, published_at). *)
Theorem notification_iff_strictly_newer
  (cfg : Settings.t) (env : Env) (states : StateMap) (repo_name : pystr)
  (release : GitRelease.t) (prev : State.t) :
  get_latest_release env repo_name = Fetched release ->
  Settings.skip_draft cfg && GitRelease.draft release = false ->
  states !! repo_name = Some prev ->
  exists evs states',
    body cfg env states repo_name = (evs, Ok states') /\
    states' = <[repo_name := state_of release]> states /\
    states' !! repo_name =
      Some {| State.id := GitRelease.id release;
              State.html_url := GitRelease.html_url release;
              State.tag_name := GitRelease.tag_name release;
              State.name :=
                str_or (GitRelease.name release) (GitRelease.tag_name release);
              State.published_at := GitRelease.published_at release |} /\
    (In (new_release_event repo_name release) evs <->
     State.published_at prev < GitRelease.published_at release) /\
    (forall wh, Settings.webhook cfg = Some wh ->
       ((exists req, In (EPost repo_name req) evs) <->
        State.published_at prev < GitRelease.published_at release)) /\
    (GitRelease.published_at release <= State.published_at prev ->
     posts evs = []).
Proof.
  intros Hf Hs Hprev.
  rewrite (body_fetched cfg env states repo_name release Hf Hs), Hprev.
  do 2 eexists. split; [reflexivity|]. split; [reflexivity|].
  split; [apply lookup_insert_eq|].
  simpl no_new_release.
  destruct (Z.leb_spec (GitRelease.published_at release) (State.published_at prev))
    as [Hle|Hlt].
  - split; [|split].
    + split; [|lia]. intros [H|[H|[]]]; discriminate.
    + intros wh _. split; [|lia]. intros [req [H|[H|[]]]]; discriminate.
    + reflexivity.
  - split; [|split].
    + split; [auto|]. intros _. right. left. reflexivity.
    + intros wh Hwh. split; [auto|]. intros _.
      pose proof (notify_spec cfg env repo_name release) as Hn.
      rewrite Hwh in Hn. destruct Hn as (content & _ & ->).
      exists (request_of wh content). right. right. left. reflexivity.
    + lia.
Qed.

Lemma notification_iff_strictly_newer_witness :
  exists evs states',
    body (Sample.cfg [py "x/y"] (Some Sample.hook)) (Sample.env Sample.v2 200)
      Sample.seen_v1 (py "x/y") = (evs, Ok states') /\
    states' = <[py "x/y" := state_of Sample.v2]> Sample.seen_v1 /\
    states' !! py "x/y" =
      Some {| State.id := 7;
              State.html_url := GitRelease.html_url Sample.v2;
              State.tag_name := py "v2";
              State.name := py "v2";
              State.published_at := 200 |} /\
    (In (new_release_event (py "x/y") Sample.v2) evs <-> 100 < 200) /\
    (forall wh,
       Settings.webhook (Sample.cfg [py "x/y"] (Some Sample.hook)) = Some wh ->
       ((exists req, In (EPost (py "x/y") req) evs) <-> 100 < 200)) /\
    (200 <= 100 -> posts evs = []).
Proof.
  apply (notification_iff_strictly_newer
           (Sample.cfg [py "x/y"] (Some Sample.hook)) (Sample.env Sample.v2 200)
           Sample.seen_v1 (py "x/y") Sample.v2 (state_of Sample.v1));
    reflexivity.
Defined.

(** ** C4: drafts *)

(** C4.  When [skip_draft] is on and the fetched release is a draft, the
    iteration returns the state map it was given and posts nothing; over a
    whole pass, whatever the other repositories do, the entry of that
    repository (present or absent) is the one the pass started with and no
    notification is posted for it. *)
Theorem skipped_draft_leaves_state
  (cfg : Settings.t) (env : Env) (r : pystr) (release : GitRelease.t) :
  get_latest_release env r = Fetched release ->
  Settings.skip_draft cfg = true ->
  GitRelease.draft release = true ->
  (forall states, body cfg env states r = ([EFetch r], Ok states)) /\
  (forall states repos evs res,
     loop cfg env states repos = (evs, res) ->
     Forall (fun ev => posted_for r ev = false) evs /\
     forall states', res = Ok states' -> states' !! r = states !! r).
Proof.
  intros Hf Hskip Hdraft.
  assert (Hs : Settings.skip_draft cfg && GitRelease.draft release = true)
    by (rewrite Hskip, Hdraft; reflexivity).
  split.
  - intros states. apply (body_skipped cfg env states r release Hf Hs).
  - intros states repos evs res. apply (loop_skipped_frame cfg env r release); auto.
Qed.

Lemma skipped_draft_leaves_state_witness :
  (forall states,
     body (Sample.cfg [py "x/y"] (Some Sample.hook))
       (Sample.env Sample.v3_draft 200) states (py "x/y")
     = ([EFetch (py "x/y")], Ok states)) /\
  (forall states repos evs res,
     loop (Sample.cfg [py "x/y"] (Some Sample.hook))
       (Sample.env Sample.v3_draft 200) states repos = (evs, res) ->
     Forall (fun ev => posted_for (py "x/y") ev = false) evs /\
     forall states', res = Ok states' -> states' !! py "x/y" = states !! py "x/y").
Proof.
  apply (skipped_draft_leaves_state
           (Sample.cfg [py "x/y"] (Some Sample.hook))
           (Sample.env Sample.v3_draft 200) (py "x/y") Sample.v3_draft);
    reflexivity.
Defined.

(** ** C5: a delivery that fails *)

(** C5.  When a new release is posted and [httpx.post] raises or answers
    with a status outside 2xx, the iteration logs the failure and ends
    normally with the release recorded.  Over a whole run, how deliveries go
    changes nothing but the messages logged about them: the run ends the
    same way, leaves the same state file, and fetches and posts for the same
    repositories in the same order. *)
Theorem delivery_failure_is_contained (cfg : Settings.t) (env : Env) :
  post_raises TransportError = true /\
  (forall status_code, status_code < 200 \/ 299 < status_code ->
     post_raises (Response status_code) = true) /\
  (forall states repo_name release wh,
     get_latest_release env repo_name = Fetched release ->
     Settings.skip_draft cfg && GitRelease.draft release = false ->
     no_new_release (states !! repo_name) release = false ->
     Settings.webhook cfg = Some wh ->
     exists content,
       render cfg env wh repo_name release = Ok content /\
       (post_raises (post env (request_of wh content)) = true ->
        body cfg env states repo_name =
          ([EFetch repo_name; new_release_event repo_name release;
            EPost repo_name (request_of wh content);
            ELogSendFailed repo_name],
           Ok (<[repo_name := state_of release]> states)))) /\
  (forall p disk,
     result (main cfg (with_post env p) disk) = result (main cfg env disk) /\
     disk_after (main cfg (with_post env p) disk) = disk_after (main cfg env disk) /\
     List.filter not_delivery_log (trace (main cfg (with_post env p) disk)) =
     List.filter not_delivery_log (trace (main cfg env disk))).
Proof.
  split; [reflexivity|]. split.
  { intros status_code Hs. unfold post_raises, is_success.
    destruct (Z.leb_spec 200 status_code), (Z.leb_spec status_code 299);
      simpl; lia || reflexivity. }
  split.
  - intros states repo_name release wh Hf Hs Hnew Hwh.
    pose proof (notify_spec cfg env repo_name release) as Hn.
    rewrite Hwh in Hn. destruct Hn as (content & Hc & Hn).
    exists content. split; [exact Hc|]. intros Hraise.
    rewrite (body_fetched cfg env states repo_name release Hf Hs), Hnew, Hn, Hraise.
    reflexivity.
  - intros p disk. unfold main. destruct (load disk) as [states|e]; [|auto].
    destruct (loop_post_independent cfg env p (Settings.repos cfg) states)
      as [H2 H1].
    destruct (loop cfg (with_post env p) states (Settings.repos cfg))
      as [ev' [st'|e']],
      (loop cfg env states (Settings.repos cfg)) as [ev [st|e]];
      simpl in *; try discriminate.
    + injection H2 as ->. rewrite !List.filter_app, H1. auto.
    + injection H2 as ->. auto.
Qed.

Lemma delivery_failure_is_contained_witness :
  exists content,
    render (Sample.cfg [py "x/y"] (Some Sample.hook)) (Sample.env Sample.v2 500)
      Sample.hook (py "x/y") Sample.v2 = Ok content /\
    (post_raises (post (Sample.env Sample.v2 500) (request_of Sample.hook content))
       = true ->
     body (Sample.cfg [py "x/y"] (Some Sample.hook)) (Sample.env Sample.v2 500)
       Sample.seen_v1 (py "x/y") =
       ([EFetch (py "x/y"); new_release_event (py "x/y") Sample.v2;
         EPost (py "x/y") (request_of Sample.hook content);
         ELogSendFailed (py "x/y")],
        Ok (<[py "x/y" := state_of Sample.v2]> Sample.seen_v1))).
Proof.
  apply (proj1 (proj2 (proj2 (delivery_failure_is_contained
                                (Sample.cfg [py "x/y"] (Some Sample.hook))
                                (Sample.env Sample.v2 500))))
           Sample.seen_v1 (py "x/y") Sample.v2 Sample.hook);
    reflexivity.
Defined.

(** A run in which the only delivery is answered with status 500. *)
Example failed_delivery_run :
  main (Sample.cfg [py "x/y"] (Some Sample.hook)) (Sample.env Sample.v2 500)
    (Holds Sample.seen_v1) =
    {| trace :=
         [EFetch (py "x/y"); new_release_event (py "x/y") Sample.v2;
          EPost (py "x/y")
            (request_of Sample.hook (Some (Sample.json_text (py "x/y v2"))));
          ELogSendFailed (py "x/y");
          EDump {[ py "x/y" := state_of Sample.v2 ]}];
       result := Ok tt;
       disk_after := Holds {[ py "x/y" := state_of Sample.v2 ]} |}.
Proof. vm_compute. reflexivity. Qed.

(** ** C6: escaping *)

(** C6, as stated, fails on non-ASCII characters: [escape] copies U+00E9
    where an encoding that escapes non-ASCII characters writes a [\u]
    escape. *)
Lemma escape_copies_non_ascii :
  escape [233%N] = [233%N] /\
  Json.escape_all_non_ascii [233%N] = py "\u00e9" /\
  escape [233%N] <> Json.escape_all_non_ascii [233%N].
Proof. vm_compute. repeat split. discriminate. Qed.

(** C6, amended.  For every string [s], [escape s] is the JSON string
    literal that [json.dumps] writes for [s] without its enclosing quotes:
    the backslash, the double quote and the control characters below U+0020
    are escaped per JSON string rules and every other character, non-ASCII
    ones included, is copied.  Read back inside a JSON string literal,
    whatever follows it there, the escaped text yields [s] unchanged. *)
Theorem escape_json_roundtrip (s : pystr) :
  Json.dumps s = QUOTE :: escape s ++ [QUOTE] /\
  escape s = concat (List.map Json.replace s) /\
  (forall c, (c = BACKSLASH \/ c = QUOTE \/ c < 32)%N ->
     exists e t, Json.replace c = BACKSLASH :: e :: t) /\
  (forall c, (32 <= c)%N -> c <> QUOTE -> c <> BACKSLASH -> Json.replace c = [c]) /\
  (forall l,
     Json.scanstring (escape s ++ l) =
       match Json.scanstring l with
       | Some (d, rest) => Some (s ++ d, rest)
       | None => None
       end) /\
  (forall rest, Json.scanstring (escape s ++ QUOTE :: rest) = Some (s, rest)).
Proof.
  assert (He : escape s = concat (List.map Json.replace s))
    by apply JsonFacts.slice_dumps.
  split; [rewrite He; reflexivity|]. split; [exact He|].
  split; [|split; [|split]].
  - intros c Hc. unfold Json.replace.
    destruct (N.eqb_spec c BACKSLASH); [eauto|].
    destruct (N.eqb_spec c QUOTE); [eauto|].
    destruct (c =? 8)%N; [eauto|]. destruct (c =? 12)%N; [eauto|].
    destruct (c =? 10)%N; [eauto|]. destruct (c =? 13)%N; [eauto|].
    destruct (c =? 9)%N; [eauto|].
    destruct (N.ltb_spec c 32); [unfold Json.u_escape; eauto|].
    destruct Hc as [?|[?|?]]; [congruence|congruence|lia].
  - intros c Hc Hq Hb. unfold Json.replace.
    destruct (N.eqb_spec c BACKSLASH); [congruence|].
    destruct (N.eqb_spec c QUOTE); [congruence|].
    destruct (N.eqb_spec c 8); [lia|]. destruct (N.eqb_spec c 12); [lia|].
    destruct (N.eqb_spec c 10); [lia|]. destruct (N.eqb_spec c 13); [lia|].
    destruct (N.eqb_spec c 9); [lia|].
    destruct (N.ltb_spec c 32); [lia|reflexivity].
  - intros l. rewrite He. apply JsonFacts.scanstring_escaped.
  - intros rest. rewrite He, JsonFacts.scanstring_escaped.
    simpl. rewrite app_nil_r. reflexivity.
Qed.

(** The scenario of the specification: a name with a double quote and a
    backslash, rendered into a JSON payload template and read back. *)
Example escaped_name_in_payload :
  exists content,
    render (Sample.cfg [py "x/y"] (Some Sample.hook)) (Sample.env Sample.v2 200)
      Sample.hook (py "x/y")
      (Sample.release (py "v2") (Some (py "a" ++ [QUOTE] ++ py "b\c")) 200 false)
    = Ok (Some content) /\
    content = Sample.json_text (py "x/y a\" ++ [QUOTE] ++ py "b\\c") /\
    Json.scanstring (drop 10 content)
    = Some (py "x/y a" ++ [QUOTE] ++ py "b\c", py "}").
Proof. eexists. vm_compute. repeat split. Qed.

(** ** C7: rendering *)

(** C7.  Rendering never raises, whatever the configured template: [render]
    always returns.  A missing or empty [content] is passed on as it is; any
    other [content] is rendered by safe substitution over exactly the keys
    [repo_name], [id], [html_url], [tag_name], [name], [published_at] and
    [body], bound to the repository name, the release id, its URL, its tag,
    its escaped name (the tag when there is none), its publication time in
    the configured timezone and its escaped body.  In the rendered content a
    placeholder, braced or bare, whose identifier is one of these keys is
    replaced by its value, and a placeholder with any other identifier is
    left as it was written. *)
Theorem rendering_never_raises
  (cfg : Settings.t) (env : Env) (wh : Webhook.t) (repo_name : pystr)
  (release : GitRelease.t) :
  let vars := template_vars cfg env repo_name release in
  (exists content, render cfg env wh repo_name release = Ok content) /\
  (Webhook.content wh = None -> render cfg env wh repo_name release = Ok None) /\
  (Webhook.content wh = Some [] ->
   render cfg env wh repo_name release = Ok (Some [])) /\
  (forall template, Webhook.content wh = Some template -> template <> [] ->
     exists out,
       Template.safe_substitute template vars = Ok out /\
       render cfg env wh repo_name release = Ok (Some out)) /\
  (forall a k rest,
     Forall (fun c => c <> DOLLAR) a -> Template.is_identifier k = true ->
     Webhook.content wh = Some (a ++ DOLLAR :: LBRACE :: k ++ RBRACE :: rest) ->
     exists out,
       Template.safe_substitute rest vars = Ok out /\
       render cfg env wh repo_name release =
         Ok (Some (a ++ match Template.getitem vars k with
                        | Some v => Template.str v
                        | None => DOLLAR :: LBRACE :: k ++ [RBRACE]
                        end ++ out))) /\
  (forall a k rest,
     Forall (fun c => c <> DOLLAR) a -> Template.is_identifier k = true ->
     Template.not_id_char_first rest = true ->
     Webhook.content wh = Some (a ++ DOLLAR :: k ++ rest) ->
     exists out,
       Template.safe_substitute rest vars = Ok out /\
       render cfg env wh repo_name release =
         Ok (Some (a ++ match Template.getitem vars k with
                        | Some v => Template.str v
                        | None => DOLLAR :: k
                        end ++ out))) /\
  (Template.getitem vars (py "repo_name") = Some (Template.VStr repo_name) /\
   Template.getitem vars (py "id") = Some (Template.VInt (GitRelease.id release)) /\
   Template.getitem vars (py "html_url")
     = Some (Template.VStr (GitRelease.html_url release)) /\
   Template.getitem vars (py "tag_name")
     = Some (Template.VStr (GitRelease.tag_name release)) /\
   Template.getitem vars (py "name")
     = Some (Template.VStr
               (escape (str_or (GitRelease.name release)
                          (GitRelease.tag_name release)))) /\
   Template.getitem vars (py "published_at")
     = Some (Template.VStr
               (isoformat_in env (Settings.timezone cfg)
                  (GitRelease.published_at release))) /\
   Template.getitem vars (py "body")
     = Some (Template.VStr (escape (str_or (GitRelease.body release) [])))) /\
  (forall template, exists out, Template.safe_substitute template vars = Ok out) /\
  List.map fst vars =
    [py "repo_name"; py "id"; py "html_url"; py "tag_name"; py "name";
     py "published_at"; py "body"] /\
  (forall k, Template.getitem vars k = None <-> k ∉ List.map fst vars) /\
  (forall k rest, Template.is_identifier k = true ->
     exists out,
       Template.safe_substitute rest vars = Ok out /\
       Template.safe_substitute (DOLLAR :: LBRACE :: k ++ RBRACE :: rest) vars =
         Ok (match Template.getitem vars k with
             | Some v => Template.str v
             | None => DOLLAR :: LBRACE :: k ++ [RBRACE]
             end ++ out)) /\
  (forall k rest, Template.is_identifier k = true ->
     Template.not_id_char_first rest = true ->
     exists out,
       Template.safe_substitute rest vars = Ok out /\
       Template.safe_substitute (DOLLAR :: k ++ rest) vars =
         Ok (match Template.getitem vars k with
             | Some v => Template.str v
             | None => DOLLAR :: k
             end ++ out)) /\
  (forall c rest, c <> DOLLAR ->
     exists out,
       Template.safe_substitute rest vars = Ok out /\
       Template.safe_substitute (c :: rest) vars = Ok (c :: out)).
Proof.
  intros vars.
  assert (Hrender : forall template,
            Webhook.content wh = Some template -> template <> [] ->
            forall out, Template.safe_substitute template vars = Ok out ->
            render cfg env wh repo_name release = Ok (Some out)).
  { intros template Hc Hne out Hout. unfold render. rewrite Hc.
    destruct template as [|c t]; [congruence|].
    fold vars. rewrite Hout. reflexivity. }
  split; [apply render_total|].
  split; [intros Hc; unfold render; rewrite Hc; reflexivity|].
  split; [intros Hc; unfold render; rewrite Hc; reflexivity|].
  split.
  { intros template Hc Hne.
    destruct (TemplateFacts.safe_substitute_total template vars) as [out Hout].
    exists out. split; [exact Hout|]. apply (Hrender template); assumption. }
  split.
  { intros a k rest Ha Hk Hc.
    destruct (TemplateFacts.safe_substitute_total rest vars) as [out Hout].
    exists out. split; [exact Hout|].
    apply (Hrender _ Hc); [destruct a; discriminate|].
    apply TemplateFacts.safe_substitute_prefix; [exact Ha|].
    apply TemplateFacts.safe_substitute_braced; assumption. }
  split.
  { intros a k rest Ha Hk Hnext Hc.
    destruct (TemplateFacts.safe_substitute_total rest vars) as [out Hout].
    exists out. split; [exact Hout|].
    apply (Hrender _ Hc); [destruct a; discriminate|].
    apply TemplateFacts.safe_substitute_prefix; [exact Ha|].
    apply TemplateFacts.safe_substitute_named; assumption. }
  split; [repeat split; reflexivity|].
  split; [intros template; apply TemplateFacts.safe_substitute_total|].
  split; [reflexivity|].
  split; [intros k; apply TemplateFacts.getitem_None|].
  split; [|split].
  - intros k rest Hk.
    destruct (TemplateFacts.safe_substitute_total rest vars) as [out Hout].
    exists out. split; [exact Hout|].
    apply TemplateFacts.safe_substitute_braced; assumption.
  - intros k rest Hk Hnext.
    destruct (TemplateFacts.safe_substitute_total rest vars) as [out Hout].
    exists out. split; [exact Hout|].
    apply TemplateFacts.safe_substitute_named; assumption.
  - intros c rest Hc.
    destruct (TemplateFacts.safe_substitute_total rest vars) as [out Hout].
    exists out. split; [exact Hout|].
    apply TemplateFacts.safe_substitute_plain; assumption.
Qed.

(** The webhook of the sample configuration: the content that [render]
    returns starts with the text in front of the first placeholder, followed
    by the repository name. *)
Lemma rendering_never_raises_witness :
  exists out,
    Template.safe_substitute (py " ${name}" ++ [QUOTE] ++ py "}")
      (template_vars (Sample.cfg [py "x/y"] (Some Sample.hook))
         (Sample.env Sample.v1 200) (py "x/y") Sample.v1) = Ok out /\
    render (Sample.cfg [py "x/y"] (Some Sample.hook)) (Sample.env Sample.v1 200)
      Sample.hook (py "x/y") Sample.v1
    = Ok (Some ((py "{" ++ [QUOTE] ++ py "text" ++ [QUOTE] ++ py ": " ++ [QUOTE])
                  ++ match Template.getitem
                             (template_vars (Sample.cfg [py "x/y"] (Some Sample.hook))
                                (Sample.env Sample.v1 200) (py "x/y") Sample.v1)
                             (py "repo_name") with
                     | Some v => Template.str v
                     | None => DOLLAR :: LBRACE :: py "repo_name" ++ [RBRACE]
                     end ++ out)).
Proof.
  apply (proj1 (proj2 (proj2 (proj2 (proj2
           (rendering_never_raises
              (Sample.cfg [py "x/y"] (Some Sample.hook)) (Sample.env Sample.v1 200)
              Sample.hook (py "x/y") Sample.v1)))))
           (py "{" ++ [QUOTE] ++ py "text" ++ [QUOTE] ++ py ": " ++ [QUOTE])
           (py "repo_name") (py " ${name}" ++ [QUOTE] ++ py "}")).
  - repeat constructor; discriminate.
  - reflexivity.
  - reflexivity.
Defined.

(** The scenarios of the specification. *)
Example render_tag_name :
  Template.safe_substitute (py "Release ${tag_name}")
    (template_vars (Sample.cfg [] None) (Sample.env Sample.v2 200) (py "x/y")
       (Sample.release (py "v3") None 300 false))
  = Ok (py "Release v3").
Proof. vm_compute. reflexivity. Qed.

Example render_missing :
  Template.safe_substitute (py "Hi ${missing}")
    (template_vars (Sample.cfg [] None) (Sample.env Sample.v2 200) (py "x/y")
       (Sample.release (py "v3") None 300 false))
  = Ok (py "Hi ${missing}").
Proof. vm_compute. reflexivity. Qed.

(** Ill-formed placeholders are left as they are, and two delimiters make one. *)
Example render_ill_formed :
  Template.safe_substitute (py "100$ ${ $$id ${id ${1} $id")
    (template_vars (Sample.cfg [] None) (Sample.env Sample.v2 200) (py "x/y")
       Sample.v2)
  = Ok (py "100$ ${ $id ${id ${1} 7").
Proof. vm_compute. reflexivity. Qed.

(** ** C8: idempotence *)

(** C8.  After a run that completed, a second run started from the state
    file it left, with the same configuration and the same fetched releases
    (and deliveries going any way), completes too, leaves the same state map
    and posts no notification. *)
Theorem second_run_is_idempotent
  (cfg : Settings.t) (env : Env) (p : Request -> PostResult) (disk : Disk) :
  result (main cfg env disk) = Ok tt ->
  result (main cfg (with_post env p) (disk_after (main cfg env disk))) = Ok tt /\
  disk_after (main cfg (with_post env p) (disk_after (main cfg env disk)))
    = disk_after (main cfg env disk) /\
  posts (trace (main cfg (with_post env p) (disk_after (main cfg env disk)))) = [].
Proof.
  unfold main.
  destruct (load disk) as [states|e]; [|discriminate].
  destruct (loop cfg env states (Settings.repos cfg)) as [evs [states1|e]] eqn:Hl;
    [|discriminate].
  intros _. cbn [disk_after load].
  pose proof (loop_records cfg env _ _ _ _ Hl) as Hrec.
  change (Forall (recorded cfg (with_post env p) states1) (Settings.repos cfg))
    in Hrec.
  destruct (loop_recorded_quiet cfg (with_post env p) _ _ Hrec) as (evs2 & Hl2 & Hp).
  rewrite Hl2. cbn [result disk_after trace].
  split; [reflexivity|]. split; [reflexivity|].
  unfold posts in *. rewrite List.filter_app, Hp. reflexivity.
Qed.

Lemma second_run_is_idempotent_witness :
  result (main (Sample.cfg [py "x/y"; py "x/y"] (Some Sample.hook))
            (Sample.env Sample.v2 200) (Holds Sample.seen_v1)) = Ok tt /\
  posts (trace (main (Sample.cfg [py "x/y"; py "x/y"] (Some Sample.hook))
                  (Sample.env Sample.v2 200) (Holds Sample.seen_v1))) <> [] /\
  result (main (Sample.cfg [py "x/y"; py "x/y"] (Some Sample.hook))
            (with_post (Sample.env Sample.v2 200) (fun _ => TransportError))
            (disk_after
               (main (Sample.cfg [py "x/y"; py "x/y"] (Some Sample.hook))
                  (Sample.env Sample.v2 200) (Holds Sample.seen_v1)))) = Ok tt /\
  disk_after
    (main (Sample.cfg [py "x/y"; py "x/y"] (Some Sample.hook))
       (with_post (Sample.env Sample.v2 200) (fun _ => TransportError))
       (disk_after
          (main (Sample.cfg [py "x/y"; py "x/y"] (Some Sample.hook))
             (Sample.env Sample.v2 200) (Holds Sample.seen_v1))))
  = disk_after
      (main (Sample.cfg [py "x/y"; py "x/y"] (Some Sample.hook))
         (Sample.env Sample.v2 200) (Holds Sample.seen_v1)) /\
  posts
    (trace
       (main (Sample.cfg [py "x/y"; py "x/y"] (Some Sample.hook))
          (with_post (Sample.env Sample.v2 200) (fun _ => TransportError))
          (disk_after
             (main (Sample.cfg [py "x/y"; py "x/y"] (Some Sample.hook))
                (Sample.env Sample.v2 200) (Holds Sample.seen_v1))))) = [].
Proof.
  split; [reflexivity|]. split; [vm_compute; discriminate|].
  apply (second_run_is_idempotent
           (Sample.cfg [py "x/y"; py "x/y"] (Some Sample.hook))
           (Sample.env Sample.v2 200) (fun _ => TransportError)
           (Holds Sample.seen_v1)).
  reflexivity.
Defined.

(** ** C9: loading the state *)

(** C9.  Loading an absent state file gives the empty map, and the run goes
    on as it would from a file holding the empty map.  A state file that is
    present but cannot be parsed makes the run end with the load error before
    any repository is fetched; nothing is posted and the file is left as it
    was. *)
Theorem state_load_outcomes (cfg : Settings.t) (env : Env) :
  load Absent = Ok (∅ : StateMap) /\
  trace (main cfg env Absent) = trace (main cfg env (Holds ∅)) /\
  result (main cfg env Absent) = result (main cfg env (Holds ∅)) /\
  load Corrupt = Raise StateLoadError /\
  main cfg env Corrupt =
    {| trace := []; result := Raise StateLoadError; disk_after := Corrupt |} /\
  fetched (trace (main cfg env Corrupt)) = [] /\
  posts (trace (main cfg env Corrupt)) = [].
Proof.
  split; [reflexivity|]. split; [|split].
  - unfold main. cbn [load].
    destruct (loop cfg env ∅ (Settings.repos cfg)) as [evs [st|e]]; reflexivity.
  - unfold main. cbn [load].
    destruct (loop cfg env ∅ (Settings.repos cfg)) as [evs [st|e]]; reflexivity.
  - repeat split; reflexivity.
Qed.

(** ** C10: an empty release name *)

(** C10.  For a release whose name is the empty string, the name stored in
    the state entry is the tag name, and the [name] variable of the template
    is the escaped tag name, so that is what a [name] placeholder renders
    to; the message logged for a new release shows the tag name as well. *)
Theorem empty_name_falls_back_to_tag
  (cfg : Settings.t) (env : Env) (repo_name : pystr) (release : GitRelease.t) :
  GitRelease.name release = Some [] ->
  State.name (state_of release) = GitRelease.tag_name release /\
  Template.getitem (template_vars cfg env repo_name release) (py "name")
    = Some (Template.VStr (escape (GitRelease.tag_name release))) /\
  Template.safe_substitute (py "${name}") (template_vars cfg env repo_name release)
    = Ok (escape (GitRelease.tag_name release)) /\
  new_release_event repo_name release =
    ELogNew repo_name (GitRelease.tag_name release) (GitRelease.tag_name release)
      (GitRelease.published_at release).
Proof.
  intros Hname.
  assert (Hget : Template.getitem (template_vars cfg env repo_name release) (py "name")
                 = Some (Template.VStr (escape (GitRelease.tag_name release)))).
  { unfold template_vars. rewrite Hname. reflexivity. }
  split; [unfold state_of; simpl; rewrite Hname; reflexivity|].
  split; [exact Hget|]. split.
  - change (py "${name}") with (DOLLAR :: LBRACE :: py "name" ++ RBRACE :: []).
    rewrite (TemplateFacts.safe_substitute_braced (py "name") [] _ []);
      [|reflexivity|reflexivity].
    rewrite Hget. simpl. rewrite app_nil_r. reflexivity.
  - unfold new_release_event. rewrite Hname. reflexivity.
Qed.

Lemma empty_name_falls_back_to_tag_witness :
  GitRelease.name Sample.v2 = Some [] /\
  State.name (state_of Sample.v2) = py "v2" /\
  Template.getitem
    (template_vars (Sample.cfg [py "x/y"] (Some Sample.hook))
       (Sample.env Sample.v2 200) (py "x/y") Sample.v2) (py "name")
    = Some (Template.VStr (escape (py "v2"))) /\
  Template.safe_substitute (py "${name}")
    (template_vars (Sample.cfg [py "x/y"] (Some Sample.hook))
       (Sample.env Sample.v2 200) (py "x/y") Sample.v2)
    = Ok (escape (py "v2")) /\
  new_release_event (py "x/y") Sample.v2 =
    ELogNew (py "x/y") (py "v2") (py "v2") 200.
Proof.
  split; [reflexivity|].
  apply (empty_name_falls_back_to_tag
           (Sample.cfg [py "x/y"] (Some Sample.hook)) (Sample.env Sample.v2 200)
           (py "x/y") Sample.v2).
  reflexivity.
Defined.


(** * Further properties *)

(** ** [escape] *)

Section EscapeFacts.

Local Open Scope N_scope.

Lemma escape_concat s : escape s = concat (List.map Json.replace s).
Proof. apply JsonFacts.slice_dumps. Qed.

Lemma replace_no_control c : Forall (fun x => 32 <= x) (Json.replace c).
Proof.
  unfold Json.replace.
  destruct (c =? BACKSLASH); [repeat constructor; discriminate|].
  destruct (c =? QUOTE); [repeat constructor; discriminate|].
  destruct (c =? 8); [repeat constructor; discriminate|].
  destruct (c =? 12); [repeat constructor; discriminate|].
  destruct (c =? 10); [repeat constructor; discriminate|].
  destruct (c =? 13); [repeat constructor; discriminate|].
  destruct (c =? 9); [repeat constructor; discriminate|].
  destruct (N.ltb_spec c 32) as [Hlt|Hge]; [|repeat constructor; exact Hge].
  assert (Hd : forall d, 32 <= Json.hexdigit d).
  { intros d. unfold Json.hexdigit. destruct (d <? 10); lia. }
  unfold Json.u_escape. repeat constructor; try discriminate; apply Hd.
Qed.

Lemma replace_length c :
  (1 <= length (Json.replace c) <= 6)%nat.
Proof.
  unfold Json.replace, Json.u_escape.
  repeat match goal with
         | |- context [if ?b then _ else _] => destruct b
         end; simpl; lia.
Qed.

Lemma replace_copied c : copied_by_escape c -> Json.replace c = [c].
Proof.
  intros (Hc & Hq & Hb). unfold Json.replace.
  destruct (N.eqb_spec c BACKSLASH); [congruence|].
  destruct (N.eqb_spec c QUOTE); [congruence|].
  destruct (N.eqb_spec c 8); [lia|]. destruct (N.eqb_spec c 12); [lia|].
  destruct (N.eqb_spec c 10); [lia|]. destruct (N.eqb_spec c 13); [lia|].
  destruct (N.eqb_spec c 9); [lia|].
  destruct (N.ltb_spec c 32); [lia|reflexivity].
Qed.

Lemma replace_escaped c :
  ~ copied_by_escape c -> exists e t, Json.replace c = BACKSLASH :: e :: t.
Proof.
  intros Hn. unfold Json.replace.
  destruct (N.eqb_spec c BACKSLASH); [eauto|].
  destruct (N.eqb_spec c QUOTE); [eauto|].
  destruct (c =? 8); [eauto|]. destruct (c =? 12); [eauto|].
  destruct (c =? 10); [eauto|]. destruct (c =? 13); [eauto|].
  destruct (c =? 9); [eauto|].
  destruct (N.ltb_spec c 32); [unfold Json.u_escape; eauto|].
  exfalso. apply Hn. repeat split; assumption.
Qed.

Lemma copied_by_escape_dec c : copied_by_escape c \/ ~ copied_by_escape c.
Proof.
  unfold copied_by_escape.
  destruct (N.le_gt_cases 32 c), (N.eq_dec c QUOTE), (N.eq_dec c BACKSLASH);
    (left; repeat split; assumption) || (right; intros (? & ? & ?); lia || congruence).
Qed.

Lemma escaped_length s :
  (length s <= length (concat (List.map Json.replace s)) <= 6 * length s)%nat.
Proof.
  induction s as [|c s IH]; simpl; [lia|].
  rewrite length_app. pose proof (replace_length c). lia.
Qed.

(** X1.  [escape] is injective: two strings with the same escaped text are
    the same string. *)
Theorem escape_injective (a b : pystr) : escape a = escape b -> a = b.
Proof.
  intros H.
  pose proof (JsonFacts.scanstring_escaped a [QUOTE]) as Ha.
  pose proof (JsonFacts.scanstring_escaped b [QUOTE]) as Hb.
  rewrite <- !escape_concat in *. rewrite H in Ha. rewrite Ha in Hb.
  simpl in Hb. rewrite !app_nil_r in Hb. congruence.
Qed.

Lemma escape_injective_witness :
  escape (py "v1.0") = escape (py "v1.0") /\ py "v1.0" = py "v1.0".
Proof.
  split; [reflexivity|].
  apply (escape_injective (py "v1.0") (py "v1.0")). reflexivity.
Defined.

(** X2.  The escaped text has no control character below U+0020 (so no raw
    line break or tab), whatever the input holds. *)
Theorem escape_has_no_control_character (s : pystr) :
  Forall (fun c => 32 <= c) (escape s).
Proof.
  rewrite escape_concat. induction s as [|c s IH]; simpl; [constructor|].
  apply Forall_app. split; [apply replace_no_control|exact IH].
Qed.

(** X3.  [escape] of the empty string is the empty string, and [escape]
    distributes over concatenation. *)
Theorem escape_app (a b : pystr) :
  escape [] = [] /\ escape (a ++ b) = escape a ++ escape b.
Proof.
  split; [reflexivity|].
  rewrite !escape_concat, List.map_app, concat_app. reflexivity.
Qed.

(** X4.  Escaping never shortens a string and makes it at most six times
    as long. *)
Theorem escape_length (s : pystr) :
  (length s <= length (escape s) <= 6 * length s)%nat.
Proof. rewrite escape_concat. apply escaped_length. Qed.

(** X5.  [escape] returns its argument unchanged exactly when the argument
    has no backslash, no double quote and no control character below
    U+0020. *)
Theorem escape_fixes_plain_text (s : pystr) :
  escape s = s <-> Forall copied_by_escape s.
Proof.
  rewrite escape_concat. split.
  - induction s as [|c s IH]; [constructor|]. simpl. intros H.
    destruct (copied_by_escape_dec c) as [Hc|Hc].
    + rewrite (replace_copied c Hc) in H. injection H as H.
      constructor; [exact Hc|apply IH, H].
    + exfalso. destruct (replace_escaped c Hc) as (e & t & Hr).
      pose proof (replace_length c) as Hl.
      pose proof (escaped_length s) as Hs.
      rewrite Hr in H, Hl. simpl in H. injection H as <- H.
      apply (f_equal length) in H. simpl in H, Hl. rewrite length_app in H. lia.
  - induction 1 as [|c s Hc _ IH]; [reflexivity|]. simpl.
    rewrite (replace_copied c Hc), IH. reflexivity.
Qed.

End EscapeFacts.

(** ** [Template.safe_substitute] and [render] *)

Section RenderFacts.

Import Template.

Local Open Scope N_scope.

Lemma match_after_delimiter_invalid c rest :
  c <> DOLLAR -> c <> LBRACE -> is_id_start c = false ->
  match_after_delimiter (c :: rest) = (mk_invalid, c :: rest).
Proof.
  intros Hd Hb Hi. unfold match_after_delimiter, match_id. rewrite Hi.
  destruct (N.eqb_spec c DOLLAR); [congruence|].
  destruct (N.eqb_spec c LBRACE); [congruence|]. reflexivity.
Qed.

(** X6.  A template without a delimiter is rendered to itself, whatever
    the mapping. *)
Theorem template_without_delimiter_unchanged
  (t : pystr) (kws : list (pystr * PyVal)) :
  Forall (fun c => c <> DOLLAR) t -> safe_substitute t kws = Ok t.
Proof.
  intros Ht. rewrite <- (app_nil_r t) at 1.
  rewrite (TemplateFacts.safe_substitute_prefix t [] kws [] Ht
             (TemplateFacts.safe_substitute_nil kws)).
  rewrite app_nil_r. reflexivity.
Qed.

Lemma template_without_delimiter_unchanged_witness :
  safe_substitute (py "New release published") [(py "id", VInt 7)]
  = Ok (py "New release published").
Proof.
  apply (template_without_delimiter_unchanged
           (py "New release published") [(py "id", VInt 7)]).
  repeat constructor; discriminate.
Defined.

(** X7.  Two delimiters in a row render to one; a delimiter at the end of
    the template, or in front of a character that starts neither an
    identifier nor a brace, is left where it is. *)
Theorem delimiter_edge_cases (kws : list (pystr * PyVal)) (rest : pystr) :
  exists out,
    safe_substitute rest kws = Ok out /\
    safe_substitute (DOLLAR :: DOLLAR :: rest) kws = Ok (DOLLAR :: out) /\
    safe_substitute [DOLLAR] kws = Ok [DOLLAR] /\
    (forall c, c <> DOLLAR -> c <> LBRACE -> is_id_start c = false ->
       safe_substitute (DOLLAR :: c :: rest) kws = Ok (DOLLAR :: c :: out)).
Proof.
  destruct (TemplateFacts.safe_substitute_total rest kws) as [out Hout].
  exists out. split; [exact Hout|]. unfold safe_substitute in *.
  split; [|split].
  - rewrite TemplateFacts.sub_cons. change (DOLLAR =? DOLLAR) with true.
    cbv iota. change (match_after_delimiter (DOLLAR :: rest))
      with (mk_escaped, rest). cbn [fst snd].
    change (convert kws mk_escaped) with (@Ok pystr [DOLLAR]).
    rewrite Hout. reflexivity.
  - reflexivity.
  - intros c Hd Hb Hi. rewrite TemplateFacts.sub_cons.
    change (DOLLAR =? DOLLAR) with true. cbv iota.
    rewrite (match_after_delimiter_invalid c rest Hd Hb Hi). cbn [fst snd].
    change (convert kws mk_invalid) with (@Ok pystr [DOLLAR]).
    rewrite TemplateFacts.sub_cons.
    destruct (N.eqb_spec c DOLLAR); [congruence|].
    rewrite Hout. reflexivity.
Qed.

(** X8.  In a template where a [name] (or [body]) placeholder fills a JSON
    string literal that follows text without delimiters, the rendered
    literal holds the escaped name (or body), and reading the literal back
    gives the name (or body) of the release unchanged, whatever characters
    it holds. *)
Theorem rendered_name_reads_back
  (cfg : Settings.t) (env : Env) (repo_name : pystr) (release : GitRelease.t)
  (a b : pystr) :
  Forall (fun c => c <> DOLLAR) a ->
  exists out,
    safe_substitute b (template_vars cfg env repo_name release) = Ok out /\
    safe_substitute (a ++ QUOTE :: py "${name}" ++ QUOTE :: b)
      (template_vars cfg env repo_name release)
    = Ok (a ++ QUOTE ::
            escape (str_or (GitRelease.name release) (GitRelease.tag_name release))
            ++ QUOTE :: out) /\
    Json.scanstring
      (escape (str_or (GitRelease.name release) (GitRelease.tag_name release))
         ++ QUOTE :: out)
    = Some (str_or (GitRelease.name release) (GitRelease.tag_name release), out) /\
    safe_substitute (a ++ QUOTE :: py "${body}" ++ QUOTE :: b)
      (template_vars cfg env repo_name release)
    = Ok (a ++ QUOTE :: escape (str_or (GitRelease.body release) [])
            ++ QUOTE :: out) /\
    Json.scanstring (escape (str_or (GitRelease.body release) []) ++ QUOTE :: out)
    = Some (str_or (GitRelease.body release) [], out).
Proof.
  intros Ha. set (vars := template_vars cfg env repo_name release).
  destruct (TemplateFacts.safe_substitute_total b vars) as [out Hout].
  exists out. split; [exact Hout|].
  assert (Hq : safe_substitute (QUOTE :: b) vars = Ok (QUOTE :: out)).
  { apply TemplateFacts.safe_substitute_plain; [discriminate|exact Hout]. }
  assert (Hread : forall s, Json.scanstring (escape s ++ QUOTE :: out) = Some (s, out)).
  { intros s. rewrite escape_concat, JsonFacts.scanstring_escaped. simpl.
    rewrite app_nil_r. reflexivity. }
  assert (Hph : forall k v,
            is_identifier k = true -> getitem vars k = Some (VStr v) ->
            safe_substitute (a ++ QUOTE :: (DOLLAR :: LBRACE :: k ++ [RBRACE])
                               ++ QUOTE :: b) vars
            = Ok (a ++ QUOTE :: v ++ QUOTE :: out)).
  { intros k v Hk Hv.
    change (a ++ QUOTE :: (DOLLAR :: LBRACE :: k ++ [RBRACE]) ++ QUOTE :: b)
      with (a ++ [QUOTE] ++ (DOLLAR :: LBRACE :: k ++ [RBRACE]) ++ QUOTE :: b).
    rewrite app_assoc.
    replace ((DOLLAR :: LBRACE :: k ++ [RBRACE]) ++ QUOTE :: b)
      with (DOLLAR :: LBRACE :: k ++ RBRACE :: QUOTE :: b)
      by (simpl; rewrite <- app_assoc; reflexivity).
    rewrite (TemplateFacts.safe_substitute_prefix (a ++ [QUOTE]) _ vars
               (v ++ QUOTE :: out)).
    - rewrite <- app_assoc. reflexivity.
    - apply Forall_app. split; [exact Ha|repeat constructor; discriminate].
    - rewrite (TemplateFacts.safe_substitute_braced k (QUOTE :: b) vars
                 (QUOTE :: out) Hk Hq), Hv.
      reflexivity. }
  split; [|split; [|split]].
  - apply (Hph (py "name")); reflexivity.
  - apply Hread.
  - apply (Hph (py "body")); reflexivity.
  - apply Hread.
Qed.

Lemma rendered_name_reads_back_witness :
  exists out,
    safe_substitute (py "}")
      (template_vars (Sample.cfg [py "x/y"] (Some Sample.hook))
         (Sample.env Sample.v1 200) (py "x/y") Sample.v1) = Ok out /\
    safe_substitute
      ((py "{" ++ [QUOTE] ++ py "text" ++ [QUOTE] ++ py ": ")
         ++ QUOTE :: py "${name}" ++ QUOTE :: py "}")
      (template_vars (Sample.cfg [py "x/y"] (Some Sample.hook))
         (Sample.env Sample.v1 200) (py "x/y") Sample.v1)
    = Ok ((py "{" ++ [QUOTE] ++ py "text" ++ [QUOTE] ++ py ": ") ++ QUOTE ::
            escape (str_or (GitRelease.name Sample.v1) (GitRelease.tag_name Sample.v1))
            ++ QUOTE :: out) /\
    Json.scanstring
      (escape (str_or (GitRelease.name Sample.v1) (GitRelease.tag_name Sample.v1))
         ++ QUOTE :: out)
    = Some (str_or (GitRelease.name Sample.v1) (GitRelease.tag_name Sample.v1), out) /\
    safe_substitute
      ((py "{" ++ [QUOTE] ++ py "text" ++ [QUOTE] ++ py ": ")
         ++ QUOTE :: py "${body}" ++ QUOTE :: py "}")
      (template_vars (Sample.cfg [py "x/y"] (Some Sample.hook))
         (Sample.env Sample.v1 200) (py "x/y") Sample.v1)
    = Ok ((py "{" ++ [QUOTE] ++ py "text" ++ [QUOTE] ++ py ": ") ++ QUOTE ::
            escape (str_or (GitRelease.body Sample.v1) []) ++ QUOTE :: out) /\
    Json.scanstring (escape (str_or (GitRelease.body Sample.v1) []) ++ QUOTE :: out)
    = Some (str_or (GitRelease.body Sample.v1) [], out).
Proof.
  apply (rendered_name_reads_back
           (Sample.cfg [py "x/y"] (Some Sample.hook)) (Sample.env Sample.v1 200)
           (py "x/y") Sample.v1
           (py "{" ++ [QUOTE] ++ py "text" ++ [QUOTE] ++ py ": ") (py "}")).
  repeat constructor; discriminate.
Defined.

End RenderFacts.

(** ** Whole runs *)

Section RunFacts.

Variable cfg : Settings.t.
Variable env : Env.

Lemma no_post_filter r evs :
  Forall (fun ev => posted_for r ev = false) evs ->
  List.filter (posted_for r) evs = [].
Proof.
  induction 1 as [|ev evs Hev _ IH]; [reflexivity|]. simpl.
  rewrite Hev. exact IH.
Qed.

(** The events of a pass: no dump among them, and one fetch per listed
    repository, in order, when the pass completes. *)
Lemma loop_trace repos states evs res :
  loop cfg env states repos = (evs, res) ->
  Forall (fun ev => is_dump ev = false) evs /\
  (forall states', res = Ok states' -> fetched evs = repos).
Proof.
  revert states evs res. induction repos as [|x rest IH]; intros states evs res.
  - simpl. intros [= <- <-]. split; [constructor|reflexivity].
  - rewrite loop_cons.
    destruct (body cfg env states x) as [evx [stx|e]] eqn:Hb.
    + destruct (body_trace cfg env _ _ _ _ Hb) as [Hfx Hdx].
      destruct (loop cfg env stx rest) as [evr resr] eqn:Hl.
      destruct (IH _ _ _ Hl) as [Hd Hf]. simpl. intros [= <- <-].
      split; [apply Forall_app; auto|].
      intros states' Hres. unfold fetched in *. rewrite omap_app, Hfx.
      rewrite (Hf _ Hres). reflexivity.
    + destruct (body_trace cfg env _ _ _ _ Hb) as [_ Hdx].
      intros [= <- <-]. split; [exact Hdx|discriminate].
Qed.

Lemma loop_completes repos states :
  all_fetched env repos ->
  exists evs states', loop cfg env states repos = (evs, Ok states').
Proof.
  intros H. revert states.
  induction H as [|x rest [rel Hx] _ IH]; intros states.
  - simpl. eauto.
  - rewrite loop_cons.
    destruct (body_of_fetched cfg env states x rel Hx) as (evx & stx & ->).
    destruct (IH stx) as (evr & st' & ->). simpl. eauto.
Qed.

Lemma loop_ok_all_fetched repos states evs states' :
  loop cfg env states repos = (evs, Ok states') -> all_fetched env repos.
Proof.
  intros Hl. apply loop_records in Hl. unfold all_fetched.
  eapply Forall_impl; [exact Hl|]. intros r (rel & Hf & _). eauto.
Qed.

(** A repository that is not listed: the pass does not fetch it, posts
    nothing for it and leaves its entry alone. *)
Lemma loop_unlisted r repos states evs res :
  r ∉ repos ->
  loop cfg env states repos = (evs, res) ->
  (r ∉ fetched evs) /\
  Forall (fun ev => posted_for r ev = false) evs /\
  (forall states', res = Ok states' -> states' !! r = states !! r).
Proof.
  revert states evs res. induction repos as [|x rest IH]; intros states evs res Hr.
  - simpl. intros [= <- <-]. split; [apply not_elem_of_nil|].
    split; [constructor|]. intros ? [= <-]. reflexivity.
  - apply not_elem_of_cons in Hr as [Hne Hr]. rewrite loop_cons.
    destruct (body cfg env states x) as [evx [stx|e]] eqn:Hb.
    + destruct (body_trace cfg env _ _ _ _ Hb) as [Hfx _].
      pose proof (body_posts_own cfg env r _ _ _ _ Hb (not_eq_sym Hne)) as Hpx.
      pose proof (body_frame cfg env r _ _ _ _ Hb (not_eq_sym Hne)) as Hsx.
      destruct (loop cfg env stx rest) as [evr resr] eqn:Hl.
      destruct (IH _ _ _ Hr Hl) as (Hf & Hp & Hs). simpl. intros [= <- <-].
      split; [|split].
      * unfold fetched in *. rewrite omap_app, Hfx.
        rewrite elem_of_app, list_elem_of_singleton. intros [?|?]; auto.
      * apply Forall_app; auto.
      * intros states' Hres. rewrite (Hs _ Hres). exact Hsx.
    + destruct (body_trace cfg env _ _ _ _ Hb) as [Hfx _].
      pose proof (body_posts_own cfg env r _ _ _ _ Hb (not_eq_sym Hne)) as Hpx.
      intros [= <- <-]. split; [|split; [exact Hpx|discriminate]].
      rewrite Hfx, list_elem_of_singleton. exact Hne.
Qed.

(** The state map a completed pass ends with. *)
Lemma loop_final_state repos states evs states' :
  loop cfg env states repos = (evs, Ok states') ->
  forall r, states' !! r = entry_after cfg env repos states r.
Proof.
  intros Hl r. unfold entry_after. case_bool_decide as Hin.
  - pose proof (loop_records cfg env _ _ _ _ Hl) as Hrec.
    rewrite Forall_forall in Hrec. destruct (Hrec r Hin) as (rel & Hf & Hrel).
    rewrite Hf.
    destruct (Settings.skip_draft cfg && GitRelease.draft rel) eqn:Hs; simpl.
    + destruct (loop_skipped_frame cfg env r rel _ _ _ _ Hf Hs Hl) as [_ H].
      apply H. reflexivity.
    + apply Hrel. reflexivity.
  - destruct (loop_unlisted r _ _ _ _ Hin Hl) as (_ & _ & H).
    rewrite (H _ eq_refl). destruct (get_latest_release env r); reflexivity.
Qed.

Lemma notify_one_post r x release :
  (length (List.filter (posted_for r) (notify cfg env x release).1) <= 1)%nat.
Proof.
  pose proof (notify_spec cfg env x release) as H.
  destruct (Settings.webhook cfg).
  - destruct H as (content & _ & ->). simpl.
    destruct (bool_decide (x = r)), (post_raises _); simpl; lia.
  - rewrite H. simpl. lia.
Qed.

(** An iteration posts at most once, and only for its own repository. *)
Lemma body_one_post r states x evs res :
  body cfg env states x = (evs, res) ->
  (length (List.filter (posted_for r) evs) <= occurrences r [x])%nat.
Proof.
  intros Hb. unfold occurrences. simpl. case_bool_decide as Hx.
  - subst x. revert Hb.
    destruct (get_latest_release env r) as [rel|e] eqn:Hf.
    + destruct (Settings.skip_draft cfg && GitRelease.draft rel) eqn:Hs.
      * rewrite (body_skipped cfg env states r rel Hf Hs).
        intros [= <- <-]. simpl. lia.
      * rewrite (body_fetched cfg env states r rel Hf Hs).
        intros [= <- <-]. cbn [List.filter posted_for].
        destruct (no_new_release (states !! r) rel); simpl; [lia|].
        apply notify_one_post.
    + rewrite (body_fetch_raises cfg env states r e Hf).
      intros [= <- <-]. simpl. lia.
  - rewrite (no_post_filter r evs); [simpl; lia|].
    eapply body_posts_own; eauto.
Qed.

Lemma loop_posts_bounded r repos states evs res :
  loop cfg env states repos = (evs, res) ->
  (length (List.filter (posted_for r) evs) <= occurrences r repos)%nat.
Proof.
  revert states evs res. induction repos as [|x rest IH]; intros states evs res.
  - simpl. intros [= <- <-]. simpl. lia.
  - rewrite loop_cons.
    assert (Hocc : occurrences r (x :: rest)
                   = (occurrences r [x] + occurrences r rest)%nat).
    { unfold occurrences. simpl. destruct (bool_decide (x = r)); reflexivity. }
    destruct (body cfg env states x) as [evx [stx|e]] eqn:Hb;
      pose proof (body_one_post r _ _ _ _ Hb) as Hx.
    + destruct (loop cfg env stx rest) as [evr resr] eqn:Hl.
      pose proof (IH _ _ _ Hl) as Hr. cbn [fst snd]. intros [= <- <-].
      rewrite List.filter_app, length_app. lia.
    + intros [= <- <-]. lia.
Qed.

(** A listed repository whose entry is older than its release is posted
    for, when a webhook is configured and the pass completes. *)
Lemma loop_posts_newer r release prev wh repos states evs states' :
  get_latest_release env r = Fetched release ->
  Settings.skip_draft cfg && GitRelease.draft release = false ->
  Settings.webhook cfg = Some wh ->
  states !! r = Some prev ->
  State.published_at prev < GitRelease.published_at release ->
  r ∈ repos ->
  loop cfg env states repos = (evs, Ok states') ->
  exists req, EPost r req ∈ evs.
Proof.
  intros Hf Hs Hwh. revert states evs.
  induction repos as [|x rest IH]; intros states evs Hprev Hlt Hin.
  - apply elem_of_nil in Hin as [].
  - rewrite loop_cons.
    destruct (body cfg env states x) as [evx [stx|e]] eqn:Hb; [|discriminate].
    destruct (loop cfg env stx rest) as [evr resr] eqn:Hl. simpl.
    intros [= <- ->]. destruct (decide (x = r)) as [->|Hne].
    + rewrite (body_fetched cfg env states r release Hf Hs), Hprev in Hb.
      simpl no_new_release in Hb.
      destruct (Z.leb_spec (GitRelease.published_at release)
                  (State.published_at prev)); [lia|].
      pose proof (notify_spec cfg env r release) as Hn. rewrite Hwh in Hn.
      destruct Hn as (content & _ & Hn). rewrite Hn in Hb.
      injection Hb as <- _. exists (request_of wh content).
      apply elem_of_app. left. do 2 apply list_elem_of_further.
      apply list_elem_of_here.
    + apply elem_of_cons in Hin as [->|Hin]; [congruence|].
      destruct (IH stx evr) as [req Hreq]; auto.
      * rewrite (body_frame cfg env r _ _ _ _ Hb Hne). exact Hprev.
      * exists req. apply elem_of_app. right. exact Hreq.
Qed.

(** Every post of a pass is for a listed repository and carries the
    configured webhook. *)
Lemma loop_posts_as_configured repos states evs res :
  (forall x, x ∈ repos -> x ∈ Settings.repos cfg) ->
  loop cfg env states repos = (evs, res) ->
  Forall (post_as_configured cfg) evs.
Proof.
  revert states evs res. induction repos as [|x rest IH]; intros states evs res Hsub.
  - simpl. intros [= <- <-]. constructor.
  - rewrite loop_cons.
    assert (Hx : forall evx resx,
               body cfg env states x = (evx, resx) ->
               Forall (post_as_configured cfg) evx).
    { intros evx resx.
      destruct (get_latest_release env x) as [rel|e] eqn:Hf.
      - destruct (Settings.skip_draft cfg && GitRelease.draft rel) eqn:Hs.
        + rewrite (body_skipped cfg env states x rel Hf Hs).
          intros [= <- <-]. repeat constructor.
        + rewrite (body_fetched cfg env states x rel Hf Hs).
          intros [= <- <-]. constructor; [exact I|].
          destruct (no_new_release _ rel); [repeat constructor|].
          constructor; [exact I|].
          pose proof (notify_spec cfg env x rel) as Hn.
          destruct (Settings.webhook cfg) as [wh|] eqn:Hwh.
          * destruct Hn as (content & _ & ->). simpl.
            constructor; [|constructor; [destruct (post_raises _); exact I|constructor]].
            simpl. split; [apply Hsub, list_elem_of_here|].
            exists wh. rewrite Hwh. auto.
          * rewrite Hn. constructor.
      - rewrite (body_fetch_raises cfg env states x e Hf).
        intros [= <- <-]. repeat constructor. }
    destruct (body cfg env states x) as [evx [stx|e]] eqn:Hb.
    + destruct (loop cfg env stx rest) as [evr resr] eqn:Hl. simpl.
      intros [= <- <-]. apply Forall_app. split; [eapply Hx; reflexivity|].
      eapply IH; [|exact Hl]. intros y Hy. apply Hsub, list_elem_of_further, Hy.
    + intros [= <- <-]. eapply Hx; reflexivity.
Qed.

End RunFacts.

Section RunProperties.

Variable cfg : Settings.t.
Variable env : Env.

Lemma fetched_with_dump evs states :
  fetched (evs ++ [EDump states]) = fetched evs.
Proof. unfold fetched. rewrite omap_app. simpl. apply app_nil_r. Qed.

Lemma main_ok disk states :
  load disk = Ok states ->
  result (main cfg env disk) = Ok tt ->
  exists evs states',
    loop cfg env states (Settings.repos cfg) = (evs, Ok states') /\
    main cfg env disk =
      {| trace := evs ++ [EDump states']; result := Ok tt;
         disk_after := Holds states' |}.
Proof.
  unfold main. intros ->.
  destruct (loop cfg env states (Settings.repos cfg)) as [evs [states'|e]];
    [eauto|discriminate].
Qed.

(** X9.  A run that ends normally has found a state file that is absent
    or well-formed, has fetched the latest release of every configured
    repository, and has made exactly one fetch per entry of the list, in
    the order of the list. *)
Theorem completed_run_fetched_everything (disk : Disk) :
  result (main cfg env disk) = Ok tt ->
  disk <> Corrupt /\
  all_fetched env (Settings.repos cfg) /\
  fetched (trace (main cfg env disk)) = Settings.repos cfg.
Proof.
  intros Hres.
  destruct (load disk) as [states|e] eqn:Hload.
  2:{ unfold main in Hres. rewrite Hload in Hres. discriminate. }
  destruct (main_ok disk states Hload Hres) as (evs & states' & Hl & ->).
  cbn [trace]. rewrite fetched_with_dump.
  split; [intros ->; discriminate|].
  split; [eapply loop_ok_all_fetched; exact Hl|].
  destruct (loop_trace cfg env _ _ _ _ Hl) as [_ Hf]. apply (Hf states').
  reflexivity.
Qed.

(** X10.  The state file is written only as the last action of a run:
    whenever the dump happens, nothing follows it, no other dump precedes
    it, and before it the latest release of every configured repository has
    been fetched, once per entry of the list and in its order. *)
Theorem state_file_written_last
  (disk : Disk) (before after : list Event) (states' : StateMap) :
  trace (main cfg env disk) = before ++ EDump states' :: after ->
  after = [] /\
  Forall (fun ev => is_dump ev = false) before /\
  fetched before = Settings.repos cfg.
Proof.
  assert (Hsplit : forall evs last,
            Forall (fun ev => is_dump ev = false) evs ->
            evs ++ [EDump last] = before ++ EDump states' :: after ->
            after = [] /\ before = evs).
  { intros evs last Hd. revert before.
    induction Hd as [|ev evs Hev _ IH]; intros before; simpl.
    - destruct before as [|b before]; simpl.
      + intros [= _ <-]. auto.
      + intros [= _ H]. destruct before; discriminate.
    - destruct before as [|b before]; simpl.
      + intros [= -> _]. discriminate.
      + intros [= <- H]. destruct (IH _ H) as [-> ->]. auto. }
  assert (Hnone : forall evs,
            Forall (fun ev => is_dump ev = false) evs ->
            evs <> before ++ EDump states' :: after).
  { intros evs Hd ->. apply Forall_app in Hd as [_ Hd].
    apply Forall_cons in Hd as [Hd _]. discriminate. }
  unfold main. destruct (load disk) as [states|e];
    [|intros H; destruct before; discriminate].
  destruct (loop cfg env states (Settings.repos cfg)) as [evs [st|e]] eqn:Hl;
    destruct (loop_trace cfg env _ _ _ _ Hl) as [Hd Hf]; cbn [trace].
  - intros H. destruct (Hsplit evs st Hd H) as [-> ->].
    split; [reflexivity|]. split; [exact Hd|]. apply (Hf st). reflexivity.
  - intros H. exfalso. exact (Hnone evs Hd H).
Qed.

(** X11.  After a run that ends normally, the saved entry of a repository
    is the snapshot of its fetched release if the repository is configured
    and the release is not a skipped draft, and the entry the run loaded
    otherwise. *)
Theorem completed_run_final_state (disk : Disk) (states : StateMap) :
  load disk = Ok states ->
  result (main cfg env disk) = Ok tt ->
  exists states',
    disk_after (main cfg env disk) = Holds states' /\
    forall r, states' !! r = entry_after cfg env (Settings.repos cfg) states r.
Proof.
  intros Hload Hres.
  destruct (main_ok disk states Hload Hres) as (evs & states' & Hl & ->).
  exists states'. split; [reflexivity|].
  eapply loop_final_state; exact Hl.
Qed.

(** X12.  A run never deletes an entry: every repository that has an entry
    in the loaded state has one in the state file the run leaves. *)
Theorem entries_never_deleted (disk : Disk) (states states' : StateMap) :
  load disk = Ok states ->
  load (disk_after (main cfg env disk)) = Ok states' ->
  dom states ⊆ dom states'.
Proof.
  intros Hload. unfold main. rewrite Hload.
  destruct (loop cfg env states (Settings.repos cfg)) as [evs [st|e]] eqn:Hl;
    cbn [disk_after load].
  - intros [= <-]. apply elem_of_subseteq. intros r. rewrite !elem_of_dom.
    rewrite (loop_final_state cfg env _ _ _ _ Hl r). unfold entry_after.
    intros Hr. destruct (get_latest_release env r); [|exact Hr].
    destruct (_ && _); [eauto|exact Hr].
  - rewrite Hload. intros [= <-]. reflexivity.
Qed.

(** X13.  A repository that is not configured is never fetched, nothing is
    posted for it, and its entry in the state file the run leaves is the
    one that was loaded. *)
Theorem unlisted_repository_untouched
  (disk : Disk) (states states' : StateMap) (r : pystr) :
  r ∉ Settings.repos cfg ->
  load disk = Ok states ->
  load (disk_after (main cfg env disk)) = Ok states' ->
  (r ∉ fetched (trace (main cfg env disk))) /\
  Forall (fun ev => posted_for r ev = false) (trace (main cfg env disk)) /\
  states' !! r = states !! r.
Proof.
  intros Hr Hload. unfold main. rewrite Hload.
  destruct (loop cfg env states (Settings.repos cfg)) as [evs [st|e]] eqn:Hl;
    destruct (loop_unlisted cfg env r _ _ _ _ Hr Hl) as (Hf & Hp & Hs);
    cbn [disk_after load trace].
  - intros [= <-]. rewrite fetched_with_dump. split; [exact Hf|].
    split; [|apply Hs; reflexivity].
    apply Forall_app. split; [exact Hp|repeat constructor].
  - rewrite Hload. intros [= <-]. auto.
Qed.

(** X14.  The state map a pass ends with does not depend on the order or
    the repetition of the repositories in the list. *)
Theorem final_state_independent_of_order
  (states states' : StateMap) (repos repos' : list pystr) (evs : list Event) :
  (forall r, r ∈ repos <-> r ∈ repos') ->
  loop cfg env states repos = (evs, Ok states') ->
  exists evs', loop cfg env states repos' = (evs', Ok states').
Proof.
  intros Hsame Hl.
  assert (Hall : all_fetched env repos').
  { pose proof (loop_ok_all_fetched cfg env _ _ _ _ Hl) as Hall.
    unfold all_fetched in *. rewrite Forall_forall in *.
    intros r Hr. apply Hall, Hsame, Hr. }
  destruct (loop_completes cfg env _ states Hall) as (evs' & st2 & Hl2).
  exists evs'. rewrite Hl2. do 2 f_equal. apply map_eq. intros r.
  rewrite (loop_final_state cfg env _ _ _ _ Hl r).
  rewrite (loop_final_state cfg env _ _ _ _ Hl2 r).
  unfold entry_after. rewrite (bool_decide_ext _ _ (Hsame r)). reflexivity.
Qed.

(** X15.  In one run the notifications posted for a repository are at most
    as many as the entries of the list that name it, whether or not the
    deliveries succeed: a failed delivery is not retried, and a repository
    listed once is posted for at most once. *)
Theorem posts_bounded_by_occurrences (disk : Disk) (r : pystr) :
  (length (List.filter (posted_for r) (trace (main cfg env disk)))
   <= occurrences r (Settings.repos cfg))%nat.
Proof.
  unfold main. destruct (load disk) as [states|e]; [|simpl; lia].
  destruct (loop cfg env states (Settings.repos cfg)) as [evs [st|e]] eqn:Hl;
    pose proof (loop_posts_bounded cfg env r _ _ _ _ Hl) as H; cbn [trace].
  - rewrite List.filter_app. simpl. rewrite app_nil_r. exact H.
  - exact H.
Qed.

(** X17.  With no webhook configured a run posts nothing. *)
Theorem no_webhook_no_post (disk : Disk) :
  Settings.webhook cfg = None -> posts (trace (main cfg env disk)) = [].
Proof.
  intros Hwh.
  assert (H : forall evs, Forall (post_as_configured cfg) evs -> posts evs = []).
  { induction 1 as [|ev evs Hev _ IH]; [reflexivity|].
    unfold posts in *. simpl. destruct ev; simpl; try exact IH.
    destruct Hev as (_ & wh & Hsome & _). congruence. }
  unfold main. destruct (load disk) as [states|e]; [|reflexivity].
  destruct (loop cfg env states (Settings.repos cfg)) as [evs [st|e]] eqn:Hl;
    pose proof (loop_posts_as_configured cfg env _ _ _ _ (fun x Hx => Hx) Hl) as Hp;
    cbn [trace].
  - unfold posts in *. rewrite List.filter_app. simpl. rewrite app_nil_r.
    apply H, Hp.
  - apply H, Hp.
Qed.

(** X18.  Every notification of a run is posted for a configured
    repository, to the URL of the configured webhook, with its static
    payload and headers. *)
Theorem posts_as_configured (disk : Disk) :
  Forall (post_as_configured cfg) (trace (main cfg env disk)).
Proof.
  unfold main. destruct (load disk) as [states|e]; [|constructor].
  destruct (loop cfg env states (Settings.repos cfg)) as [evs [st|e]] eqn:Hl;
    pose proof (loop_posts_as_configured cfg env _ _ _ _ (fun x Hx => Hx) Hl) as Hp;
    cbn [trace]; [|exact Hp].
  apply Forall_app. split; [exact Hp|repeat constructor].
Qed.

End RunProperties.

(** ** Runs under two environments or two configurations *)

Lemma body_webhook_independent cfg env w states x :
  (body (with_webhook cfg w) env states x).2 = (body cfg env states x).2 /\
  fetched (body (with_webhook cfg w) env states x).1 =
  fetched (body cfg env states x).1.
Proof.
  split.
  - destruct (get_latest_release env x) as [rel|e] eqn:Hf.
    + destruct (Settings.skip_draft cfg && GitRelease.draft rel) eqn:Hs.
      * rewrite (body_skipped (with_webhook cfg w) env states x rel Hf Hs).
        rewrite (body_skipped cfg env states x rel Hf Hs). reflexivity.
      * rewrite (body_fetched (with_webhook cfg w) env states x rel Hf Hs).
        rewrite (body_fetched cfg env states x rel Hf Hs). reflexivity.
    + rewrite (body_fetch_raises (with_webhook cfg w) env states x e Hf).
      rewrite (body_fetch_raises cfg env states x e Hf). reflexivity.
  - destruct (body (with_webhook cfg w) env states x) as [ev' res'] eqn:Hb'.
    destruct (body cfg env states x) as [ev res] eqn:Hb. cbn [fst].
    destruct (body_trace _ _ _ _ _ _ Hb') as [-> _].
    destruct (body_trace _ _ _ _ _ _ Hb) as [-> _]. reflexivity.
Qed.

Lemma loop_webhook_independent cfg env w repos states :
  (loop (with_webhook cfg w) env states repos).2 = (loop cfg env states repos).2 /\
  fetched (loop (with_webhook cfg w) env states repos).1 =
  fetched (loop cfg env states repos).1.
Proof.
  revert states. induction repos as [|x rest IH]; intros states.
  - split; reflexivity.
  - rewrite !loop_cons.
    destruct (body_webhook_independent cfg env w states x) as [H2 H1].
    destruct (body (with_webhook cfg w) env states x) as [ev' [st'|e']],
             (body cfg env states x) as [ev [st|e]];
      simpl in *; try discriminate.
    + injection H2 as ->. destruct (IH st) as [I2 I1].
      split; [exact I2|]. unfold fetched in *. rewrite !omap_app. congruence.
    + split; congruence.
Qed.

(** X16.  Between two runs that end normally, a configured repository whose
    latest release has become strictly newer is announced by the second run
    when a webhook is configured (neither release being a skipped draft). *)
Theorem newer_release_is_announced
  (cfg : Settings.t) (env1 env2 : Env) (disk : Disk) (r : pystr)
  (rel1 rel2 : GitRelease.t) (wh : Webhook.t) :
  r ∈ Settings.repos cfg ->
  Settings.webhook cfg = Some wh ->
  get_latest_release env1 r = Fetched rel1 ->
  Settings.skip_draft cfg && GitRelease.draft rel1 = false ->
  get_latest_release env2 r = Fetched rel2 ->
  Settings.skip_draft cfg && GitRelease.draft rel2 = false ->
  GitRelease.published_at rel1 < GitRelease.published_at rel2 ->
  result (main cfg env1 disk) = Ok tt ->
  result (main cfg env2 (disk_after (main cfg env1 disk))) = Ok tt ->
  exists req,
    EPost r req ∈ trace (main cfg env2 (disk_after (main cfg env1 disk))).
Proof.
  intros Hin Hwh Hf1 Hs1 Hf2 Hs2 Hlt Hres1.
  destruct (load disk) as [states|e] eqn:Hload.
  2:{ unfold main in Hres1. rewrite Hload in Hres1. discriminate. }
  destruct (main_ok cfg env1 disk states Hload Hres1) as (evs1 & st1 & Hl1 & ->).
  cbn [disk_after]. intros Hres2.
  destruct (main_ok cfg env2 (Holds st1) st1 eq_refl Hres2)
    as (evs2 & st2 & Hl2 & ->).
  cbn [trace].
  pose proof (loop_records cfg env1 _ _ _ _ Hl1) as Hrec.
  rewrite Forall_forall in Hrec. destruct (Hrec r Hin) as (rel & Hf & Hr).
  rewrite Hf1 in Hf. injection Hf as <-. specialize (Hr Hs1).
  destruct (loop_posts_newer cfg env2 r rel2 (state_of rel1) wh _ _ _ _
              Hf2 Hs2 Hwh Hr Hlt Hin Hl2) as [req Hreq].
  exists req. apply elem_of_app. left. exact Hreq.
Qed.

Lemma newer_release_is_announced_witness :
  exists req,
    EPost (py "x/y") req ∈
      trace (main (Sample.cfg [py "x/y"] (Some Sample.hook))
               (Sample.env Sample.v2 200)
               (disk_after
                  (main (Sample.cfg [py "x/y"] (Some Sample.hook))
                     (Sample.env Sample.v1 200) Absent))).
Proof.
  apply (newer_release_is_announced
           (Sample.cfg [py "x/y"] (Some Sample.hook))
           (Sample.env Sample.v1 200) (Sample.env Sample.v2 200) Absent
           (py "x/y") Sample.v1 Sample.v2 Sample.hook);
    try reflexivity.
  apply list_elem_of_here.
Defined.

(** X20.  Whether and how a webhook is configured has no influence on how a
    run ends, on the state file it leaves or on the repositories it
    fetches. *)
Theorem state_independent_of_webhook
  (cfg : Settings.t) (env : Env) (w : option Webhook.t) (disk : Disk) :
  result (main (with_webhook cfg w) env disk) = result (main cfg env disk) /\
  disk_after (main (with_webhook cfg w) env disk) = disk_after (main cfg env disk) /\
  fetched (trace (main (with_webhook cfg w) env disk)) =
  fetched (trace (main cfg env disk)).
Proof.
  unfold main. destruct (load disk) as [states|e]; [|auto].
  change (Settings.repos (with_webhook cfg w)) with (Settings.repos cfg).
  destruct (loop_webhook_independent cfg env w (Settings.repos cfg) states)
    as [H2 H1].
  destruct (loop (with_webhook cfg w) env states (Settings.repos cfg))
    as [ev' [st'|e']],
    (loop cfg env states (Settings.repos cfg)) as [ev [st|e]];
    simpl in *; try discriminate.
  - injection H2 as ->. rewrite !fetched_with_dump. auto.
  - injection H2 as ->. auto.
Qed.

(** Concrete runs for the properties above that have a hypothesis. *)

Lemma completed_run_final_state_witness :
  exists states',
    disk_after (main (Sample.cfg [py "x/y"] (Some Sample.hook))
                  (Sample.env Sample.v2 200) (Holds Sample.seen_v1))
    = Holds states' /\
    forall r,
      states' !! r =
        entry_after (Sample.cfg [py "x/y"] (Some Sample.hook))
          (Sample.env Sample.v2 200) [py "x/y"] Sample.seen_v1 r.
Proof.
  apply (completed_run_final_state
           (Sample.cfg [py "x/y"] (Some Sample.hook)) (Sample.env Sample.v2 200)
           (Holds Sample.seen_v1) Sample.seen_v1);
    reflexivity.
Defined.

Lemma entries_never_deleted_witness :
  dom Sample.seen_v1 ⊆ dom ({[ py "x/y" := state_of Sample.v2 ]} : StateMap).
Proof.
  apply (entries_never_deleted
           (Sample.cfg [py "x/y"] (Some Sample.hook)) (Sample.env Sample.v2 200)
           (Holds Sample.seen_v1) Sample.seen_v1
           {[ py "x/y" := state_of Sample.v2 ]});
    [reflexivity|vm_compute; reflexivity].
Defined.

Lemma unlisted_repository_untouched_witness :
  (py "a/a" ∉
     fetched (trace (main (Sample.cfg [py "x/y"] (Some Sample.hook))
                       (Sample.env Sample.v2 200) (Holds Sample.seen_v1)))) /\
  Forall (fun ev => posted_for (py "a/a") ev = false)
    (trace (main (Sample.cfg [py "x/y"] (Some Sample.hook))
              (Sample.env Sample.v2 200) (Holds Sample.seen_v1))) /\
  ({[ py "x/y" := state_of Sample.v2 ]} : StateMap) !! py "a/a"
  = Sample.seen_v1 !! py "a/a".
Proof.
  apply (unlisted_repository_untouched
           (Sample.cfg [py "x/y"] (Some Sample.hook)) (Sample.env Sample.v2 200)
           (Holds Sample.seen_v1) Sample.seen_v1
           {[ py "x/y" := state_of Sample.v2 ]} (py "a/a")).
  - apply not_elem_of_cons. split; [discriminate|apply not_elem_of_nil].
  - reflexivity.
  - vm_compute. reflexivity.
Defined.

Lemma final_state_independent_of_order_witness :
  exists evs',
    loop (Sample.cfg [] (Some Sample.hook)) (Sample.env Sample.v2 200)
      Sample.seen_v1 [py "x/y"]
    = (evs', Ok ({[ py "x/y" := state_of Sample.v2 ]} : StateMap)).
Proof.
  apply (final_state_independent_of_order
           (Sample.cfg [] (Some Sample.hook)) (Sample.env Sample.v2 200)
           Sample.seen_v1 {[ py "x/y" := state_of Sample.v2 ]}
           [py "x/y"; py "x/y"] [py "x/y"]
           (loop (Sample.cfg [] (Some Sample.hook)) (Sample.env Sample.v2 200)
              Sample.seen_v1 [py "x/y"; py "x/y"]).1).
  - intros r. rewrite !elem_of_cons. tauto.
  - vm_compute. reflexivity.
Defined.

Lemma no_webhook_no_post_witness :
  posts (trace (main (Sample.cfg [py "x/y"] None) (Sample.env Sample.v2 200)
                  (Holds Sample.seen_v1))) = [].
Proof.
  apply (no_webhook_no_post (Sample.cfg [py "x/y"] None)
           (Sample.env Sample.v2 200) (Holds Sample.seen_v1)).
  reflexivity.
Defined.

Lemma completed_run_fetched_everything_witness :
  Holds Sample.seen_v1 <> Corrupt /\
  all_fetched (Sample.env Sample.v2 200) [py "x/y"; py "x/y"] /\
  fetched (trace (main (Sample.cfg [py "x/y"; py "x/y"] (Some Sample.hook))
                    (Sample.env Sample.v2 200) (Holds Sample.seen_v1)))
  = [py "x/y"; py "x/y"].
Proof.
  apply (completed_run_fetched_everything
           (Sample.cfg [py "x/y"; py "x/y"] (Some Sample.hook))
           (Sample.env Sample.v2 200) (Holds Sample.seen_v1)).
  reflexivity.
Defined.

Lemma state_file_written_last_witness :
  ([] : list Event) = [] /\
  Forall (fun ev => is_dump ev = false)
    [EFetch (py "x/y"); new_release_event (py "x/y") Sample.v2] /\
  fetched [EFetch (py "x/y"); new_release_event (py "x/y") Sample.v2]
  = [py "x/y"].
Proof.
  apply (state_file_written_last
           (Sample.cfg [py "x/y"] None) (Sample.env Sample.v2 200)
           (Holds Sample.seen_v1)
           [EFetch (py "x/y"); new_release_event (py "x/y") Sample.v2] []
           {[ py "x/y" := state_of Sample.v2 ]}).
  vm_compute. reflexivity.
Defined.
